(** * espa-bandit: the storage offer agent of [dummy_algorithm.py]

    A shallow embedding of the pricing and scheduling code of the agent:
    the opportunity-cost engine, the real-time ledger walk with its
    end-of-horizon valuation, the offer post-processing and the linear
    program that the scheduler hands to the solver.

    Numbers.  Python [int] and [float] values are embedded as exact
    rationals ([Q]); [0.892] is [892/1000] and [1e-2] is [1/100].  Every
    statement below is therefore about exact arithmetic, and compares
    numbers with [==] where a value is computed and with [=] where it is
    copied.

    Exceptions.  A Python function that may raise returns [result A]; the
    exception carries the message that the source gives it. *)

From Stdlib Require Import ZArith QArith Qabs Lqa Lia List String Bool.
From Stdlib Require Import Permutation Sorted.
Import ListNotations.

Open Scope string_scope.
Open Scope list_scope.
Open Scope Z_scope.
Open Scope Q_scope.

(* ================================================================== *)
(** * Python values and built-ins *)

Module Py.

Inductive exn : Type :=
| ValueError (msg : string)
| TypeError (msg : string)
| ImportError (msg : string)
| AssertionError (msg : string)
| KeyError (key : string)
| IndexError
| StopIteration.

Inductive result (A : Type) : Type :=
| Ok (a : A)
| Raise (e : exn).
Arguments Ok {A} a.
Arguments Raise {A} e.

Definition bind {A B} (m : result A) (k : A -> result B) : result B :=
  match m with
  | Ok a => k a
  | Raise e => Raise e
  end.

(** [assert cond, msg] *)
Definition assert (cond : bool) (msg : string) : result unit :=
  if cond then Ok tt else Raise (AssertionError msg).

(** ** Comparisons of numbers *)

Definition ltb (x y : Q) : bool :=
  match x ?= y with Lt => true | _ => false end.
Definition leb (x y : Q) : bool :=
  match x ?= y with Gt => false | _ => true end.
Definition gtb (x y : Q) : bool := ltb y x.

(** ** [len], indexing and slicing, with Python's negative positions *)

Definition len {A} (l : list A) : Z := Z.of_nat (List.length l).

(** [l[i]] *)
Definition getitem {A} (l : list A) (i : Z) : result A :=
  let k := (if i <? 0 then i + len l else i)%Z in
  if (k <? 0)%Z then Raise IndexError
  else match nth_error l (Z.to_nat k) with
       | Some x => Ok x
       | None => Raise IndexError
       end.

(** The position a slice bound denotes in a sequence of length [n]. *)
Definition clamp (n i : Z) : Z :=
  (if i <? 0 then Z.max 0 (i + n) else Z.min i n)%Z.

(** [l[start:stop]]; [None] is an omitted bound. *)
Definition slice {A} (l : list A) (start stop : option Z) : list A :=
  let n := len l in
  let lo := match start with None => 0%Z | Some i => clamp n i end in
  let hi := match stop with None => n | Some i => clamp n i end in
  firstn (Z.to_nat (hi - lo)) (skipn (Z.to_nat lo) l).

(** ** [min], [max], [sum] *)

(** [min(a, b)] and [max(a, b)]: the first argument wins a tie. *)
Definition min2 (a b : Q) : Q := if ltb b a then b else a.
Definition max2 (a b : Q) : Q := if ltb a b then b else a.

Definition min (l : list Q) : result Q :=
  match l with
  | [] => Raise (ValueError "min() arg is an empty sequence")
  | x :: r => Ok (fold_left min2 r x)
  end.

Definition max (l : list Q) : result Q :=
  match l with
  | [] => Raise (ValueError "max() arg is an empty sequence")
  | x :: r => Ok (fold_left max2 r x)
  end.

Definition sum (l : list Q) : Q := fold_left Qplus l 0.

(** ** Generators over [enumerate] *)

Fixpoint where_from {A} (p : A -> bool) (k : Z) (l : list A) : list Z :=
  match l with
  | [] => []
  | x :: r => if p x then k :: where_from p (k + 1) r
              else where_from p (k + 1) r
  end.

(** [(index for index, value in enumerate(l) if p(value))] *)
Definition indices {A} (p : A -> bool) (l : list A) : list Z :=
  where_from p 0 l.

(** [next(g)] *)
Definition next (g : list Z) : result Z :=
  match g with
  | [] => Raise StopIteration
  | k :: _ => Ok k
  end.

(** [next(g, None)] *)
Definition next_or_None (g : list Z) : option Z := hd_error g.

(** [max(g, default=None)] for a generator of integers *)
Definition max_or_None (g : list Z) : option Z :=
  match g with
  | [] => None
  | k :: r => Some (fold_left Z.max r k)
  end.

(** [not j] for [j] an integer or [None] *)
Definition falsy (j : option Z) : bool :=
  match j with
  | None => true
  | Some k => (k =? 0)%Z
  end.

(** The integer held by [j] once [not j] has been ruled out. *)
Definition the_int (j : option Z) : Z :=
  match j with
  | Some k => k
  | None => 0%Z
  end.

(** ** Dictionaries: insertion-ordered, one entry per key *)

Definition dict (V : Type) : Type := list (string * V).

Fixpoint dget {V} (k : string) (d : dict V) : option V :=
  match d with
  | [] => None
  | (k', v) :: r => if String.eqb k k' then Some v else dget k r
  end.

(** [d[k] = v]: an existing key keeps its place. *)
Fixpoint dset {V} (k : string) (v : V) (d : dict V) : dict V :=
  match d with
  | [] => [(k, v)]
  | (k', v') :: r =>
      if String.eqb k k' then (k', v) :: r else (k', v') :: dset k v r
  end.

(** [d[k]] *)
Definition lookup {V} (k : string) (d : dict V) : result V :=
  match dget k d with
  | Some v => Ok v
  | None => Raise (KeyError k)
  end.

(** [dict(pairs)] *)
Definition dict_of {V} (pairs : list (string * V)) : dict V :=
  fold_left (fun d kv => dset (fst kv) (snd kv) d) pairs [].

(** [needle in haystack] for strings *)
Fixpoint str_in (needle haystack : string) : bool :=
  if String.prefix needle haystack then true
  else match haystack with
       | EmptyString => false
       | String _ rest => str_in needle rest
       end.

End Py.

Import Py.

Notation "x <- m ;; k" := (bind m (fun x => k))
  (at level 61, m at next level, right associativity).
Notation "m ;;; k" := (bind m (fun _ => k))
  (at level 61, right associativity).

(* ================================================================== *)
(** * Module-level battery parameters *)

Definition socmax : Q := 608.
Definition socmin : Q := 128.
Definition chmax : Q := 125.
Definition dcmax : Q := 125.
Definition efficiency : Q := 892 # 1000.
Definition duration_minutes : Q := 5.

(** * The agent *)

(** [ou.Binner(output_type='lists')]: the curve binner of the platform's
    [offer_utils]; the agent only calls [collate]. *)
Record Binner : Type := {
  collate : list Q -> list Q -> list Q * list Q
}.

(** A filled order [(mq, mc)]: signed quantity and price. *)
Definition order : Type := (Q * Q)%type.

Record market_info : Type := {
  market_type : string;
  timestamps : list string
}.

Record resource_info : Type := {
  rid : string;
  status_soc : Q;
  status_dispatch : Q;
  (** [resource['ledger'][rid]['EN']] *)
  ledger_EN : dict (list order)
}.

Record Agent : Type := {
  self_step : Z;
  self_market : market_info;
  self_resource : resource_info;
  self_rid : string;
  self_duration_minutes : Q;
  self_socmax : Q;
  self_socmin : Q;
  self_chmax : Q;
  self_dcmax : Q;
  self_efficiency : Q;
  self_price_ceiling : Q;
  self_price_floor : Q;
  self_binner : Binner
}.

Definition __init__ (binner : Binner) (time_step : Z)
    (market : market_info) (resource : resource_info) : Agent :=
  {| self_step := time_step;
     self_market := market;
     self_resource := resource;
     self_rid := rid resource;
     self_duration_minutes := duration_minutes;
     self_socmax := socmax;
     self_socmin := socmin;
     self_chmax := chmax;
     self_dcmax := dcmax;
     self_efficiency := efficiency;
     self_price_ceiling := 999;
     self_price_floor := 0;
     self_binner := binner |}.

(* ================================================================== *)
(** * Opportunity costs *)

Section OpportunityCost.

Variable self : Agent.

Let eff : Q := self_efficiency self.

Definition _calc_oc_charge (combined_list prices : list Q) (idx : Z)
  : result (Q * Q) :=
  j0 <- (if (idx <? len combined_list - 1)%Z
         then k <- next (indices (fun value => gtb value 0)
                           (slice combined_list (Some (idx + 1)%Z) None)) ;;
              Ok (Some (idx + 1 + k)%Z)
         else Ok None) ;;
  let j := if falsy j0 then Z.min (idx + 1) (len prices - 1)
           else the_int j0 in
  if (idx =? 0)%Z then
    m <- min (slice prices (Some 1%Z) (Some j)) ;;
    pj <- getitem prices j ;;
    let oc_ch := min2 m (eff * pj) in
    let oc_dis := oc_ch + (1 # 100) in
    Ok (oc_ch, oc_dis)
  else
    arrs <- (if (j =? idx + 1)%Z then
               arr1 <- min (slice prices (Some 0%Z) (Some idx)) ;;
               Ok (arr1, 0)
             else if (j =? idx + 2)%Z then
               arr1 <- min (slice prices (Some 0%Z) (Some idx)) ;;
               arr2 <- getitem prices (j - 1) ;;
               Ok (arr1, arr2)
             else
               arr1 <- min (slice prices (Some 0%Z) (Some idx)) ;;
               arr2 <- max (slice prices (Some idx) (Some (j + 1)%Z)) ;;
               Ok (arr1, arr2)) ;;
    let '(arr1, arr2) := arrs in
    m <- min (slice prices None (Some idx)
              ++ slice prices (Some (idx + 1)%Z) None) ;;
    let oc_ch := m * eff in
    pi <- getitem prices idx ;;
    let oc_dis := arr1 * eff + arr2 - pi in
    Ok (oc_ch, oc_dis).

Definition _calc_oc_discharge (combined_list prices : list Q) (idx : Z)
  : result (Q * Q) :=
  let j0 := max_or_None (indices (fun value => ltb value 0)
                           (slice combined_list None (Some (idx - 1)%Z))) in
  let j := if falsy j0 then 0%Z else the_int j0 in
  arr1 <- (if (idx =? len prices - 1)%Z then Ok 0
           else max (slice prices (Some (idx + 1)%Z) None)) ;;
  arr2 <- (if (j =? idx - 1)%Z then
             pj <- getitem prices j ;; Ok (min2 pj 0)
           else if (j =? idx - 2)%Z then
             getitem prices (j + 1)
           else
             min (slice prices (Some (j + 1)%Z) (Some idx))) ;;
  pi <- getitem prices idx ;;
  let oc_ch := (pi - arr2) * eff - arr1 in
  m <- min (slice prices (Some j) (Some idx)) ;;
  let oc_dis := m / eff in
  Ok (oc_ch, oc_dis).

Definition _calc_oc_before_first_charge (prices : list Q) (t1_idx idx : Z)
  : result (Q * Q) :=
  m <- min (slice prices (Some idx) (Some (t1_idx + 1)%Z)) ;;
  let oc_ch := m * eff in
  m' <- min (slice prices (Some 0%Z) (Some idx)) ;;
  let oc_dis := m' / eff in
  Ok (oc_ch, oc_dis).

Definition _calc_oc_after_last_discharge (prices : list Q) (t_last idx : Z)
  : result (Q * Q) :=
  oc_ch <- (if (idx <=? len prices - 2)%Z then
              m <- max (slice prices (Some (idx + 1)%Z) None) ;;
              Ok (m * eff)
            else Ok (self_price_floor self)) ;;
  m <- min (slice prices (Some t_last) (Some (idx + 1)%Z)) ;;
  let oc_dis := m / eff in
  Ok (oc_ch, oc_dis).

Definition _calc_oc_between_cycles (combined_list prices : list Q) (idx : Z)
  : result (Q * Q) :=
  j_next <- match next_or_None (indices (fun value => gtb value 0)
                                  (slice combined_list (Some idx) None)) with
            | Some k => Ok (idx + k)%Z
            | None => Raise (TypeError
                "unsupported operand type(s) for +: 'int' and 'NoneType'")
            end ;;
  j_prev <- match max_or_None (indices (fun value => ltb value 0)
                                 (slice combined_list None (Some idx))) with
            | Some k => Ok k
            | None => Raise (TypeError
                "unsupported operand type(s) for +: 'NoneType' and 'int'")
            end ;;
  oc_ch <- (if (idx <=? j_prev + 1)%Z then getitem prices j_prev
            else
              m <- max (slice prices (Some (j_prev + 1)%Z) (Some idx)) ;;
              p <- getitem prices j_prev ;;
              Ok (max2 (m * eff) p)) ;;
  oc_dis <- (if (idx >=? j_next - 1)%Z then
               p <- getitem prices j_next ;;
               p' <- getitem prices (idx + 1) ;;
               Ok (min2 p (p' / eff))
             else
               p <- getitem prices j_next ;;
               m <- min (slice prices (Some (idx + 1)%Z)
                           (Some (j_next + 1)%Z)) ;;
               Ok (min2 p (m / eff))) ;;
  Ok (oc_ch, oc_dis).

(** One turn of the loop over [enumerate(schedule)]; the debug line of
    the source formats [prices[i]], which is why it is read here. *)
Definition oc_period (combined_list prices : list Q)
    (t1_ch t_last_dis : Z) (i : Z) (value : Q) : result (Q * Q) :=
  oc <- (if ltb value 0 then _calc_oc_charge combined_list prices i
         else if gtb value 0 then _calc_oc_discharge combined_list prices i
         else if (i <? t1_ch)%Z
              then _calc_oc_before_first_charge prices t1_ch i
         else if (i >? t_last_dis)%Z
              then _calc_oc_after_last_discharge prices t_last_dis i
         else _calc_oc_between_cycles combined_list prices i) ;;
  getitem prices i ;;;
  Ok oc.

Fixpoint oc_loop (combined_list prices : list Q) (t1_ch t_last_dis : Z)
    (i : Z) (schedule : dict Q) (charge_list discharge_list : list Q)
  : result (list Q * list Q) :=
  match schedule with
  | [] => Ok (charge_list, discharge_list)
  | (_, value) :: rest =>
      oc <- oc_period combined_list prices t1_ch t_last_dis i value ;;
      oc_loop combined_list prices t1_ch t_last_dis (i + 1) rest
        (charge_list ++ [fst oc]) (discharge_list ++ [snd oc])
  end.

(** [[dis - ch for ch, dis in zip(charge_mq, discharge_mq)]] *)
Definition combine_flows (charge_mq discharge_mq : list Q) : list Q :=
  map (fun cd => snd cd - fst cd) (List.combine charge_mq discharge_mq).

(** [next((i for i in range(len(l) - 1, -1, -1) if l[i] > 0), None)] *)
Definition last_positive (l : list Q) : option Z :=
  max_or_None (indices (fun value => gtb value 0) l).

Definition _calculate_opportunity_costs
    (prices charge_mq discharge_mq : list Q) : result (list Q * list Q) :=
  let combined_list := combine_flows charge_mq discharge_mq in
  let time := timestamps (self_market self) in
  let schedule := dict_of (List.combine time combined_list) in
  let t1_ch := next_or_None (indices (fun value => ltb value 0)
                               (map snd schedule)) in
  let t_last_dis := last_positive combined_list in
  match t1_ch with
  | None => Raise (AssertionError "t1_ch is not an int")
  | Some t1 =>
    match t_last_dis with
    | None => Raise (AssertionError "t_last_dis is not an int")
    | Some tl =>
        lists <- oc_loop combined_list prices t1 tl 0 schedule [] [] ;;
        let '(charge_list, discharge_list) := lists in
        assert (gtb (sum (map Qabs charge_list)) 0)
               "calc_oc: charge list has no values" ;;;
        assert (gtb (sum (map Qabs discharge_list)) 0)
               "calc_oc: discharge list has no values" ;;;
        Ok (charge_list, discharge_list)
    end
  end.

End OpportunityCost.

(* ================================================================== *)
(** * Real-time offers *)

(** What a block of the offer may hold for a period: the agent inspects
    it with [isinstance]. *)
Inductive value : Type :=
| VInt (n : Z)
| VFloat (x : Q)
| VList (l : list Q)
| VStr (s : string)
| VNone.

(** [f"{type(v)}"] *)
Definition type_repr (v : value) : string :=
  match v with
  | VInt _ => "<class 'int'>"
  | VFloat _ => "<class 'float'>"
  | VList _ => "<class 'list'>"
  | VStr _ => "<class 'str'>"
  | VNone => "<class 'NoneType'>"
  end.

(** The scalar entries that [_default_offer_constants] fills in. *)
Record constants : Type := {
  soc_begin : Q;
  init_en : Q;
  init_status : Z;
  ramp_dn : Q;
  ramp_up : Q;
  c_socmax : Q;
  c_socmin : Q;
  eff_ch : Q;
  eff_dc : Q;
  soc_end : Q;
  bid_soc : bool
}.

(** The dictionary stored under the resource id. *)
Record offer_body : Type := {
  block_ch_mc : dict value;
  block_ch_mq : dict value;
  block_dc_mc : dict value;
  block_dc_mq : dict value;
  block_soc_mc : dict value;
  block_soc_mq : dict value;
  cost_rgu : dict Q;
  cost_rgd : dict Q;
  cost_spr : dict Q;
  cost_nsp : dict Q;
  offer_chmax : dict Q;
  offer_dcmax : dict Q;
  offer_constants : constants
}.

Definition offer : Type := dict offer_body.

(** The warnings of the ledger walk. *)
Inductive warning : Type :=
| ChargeExceedsHeadroom (t : string)
| DischargeExceedsAvailable (t : string)
| FaultyCases
| SocBelowMin (t : string)
| SocAboveMax (t : string).

(** The running quantities of [_real_time_offer]. *)
Record capacity : Type := {
  soc_available : Q;
  soc_headroom : Q;
  best_dc_price : Q;
  best_ch_price : Q;
  warnings : list warning
}.

Definition warn (w : warning) (st : capacity) : capacity :=
  {| soc_available := soc_available st;
     soc_headroom := soc_headroom st;
     best_dc_price := best_dc_price st;
     best_ch_price := best_ch_price st;
     warnings := warnings st ++ [w] |}.

(** The four per-period lists that the walk fills. *)
Record blocks : Type := {
  dc_mc : dict (list Q);
  dc_mq : dict (list Q);
  ch_mc : dict (list Q);
  ch_mq : dict (list Q)
}.

(** [sorted(l, key=lambda tup: tup[1], reverse=True)]: descending in the
    price, equal prices in their original order. *)
Fixpoint insert_desc (x : order) (l : list order) : list order :=
  match l with
  | [] => [x]
  | y :: r => if ltb (snd x) (snd y) then y :: insert_desc x r
              else x :: y :: r
  end.

Definition sorted_desc (l : list order) : list order :=
  fold_right insert_desc [] l.

(** [max(timestamps)] on strings *)
Definition max_str (l : list string) : result string :=
  match l with
  | [] => Raise (ValueError "max() arg is an empty sequence")
  | x :: r => Ok (fold_left (fun m y => if String.ltb m y then y else m) r x)
  end.

Section RealTime.

Variable self : Agent.

Let ledger : dict (list order) := ledger_EN (self_resource self).

(** The chain of branches that classifies an order. *)
Definition ledger_branch (t : string) (st : capacity) (o : order)
  : capacity :=
  let '(mq, mc) := o in
    if leb (- soc_headroom st) (mq * 5 / 60) && ltb (mq * 5 / 60) 0 then
      {| soc_available :=
           soc_available st + mq * self_efficiency self * 5 / 60;
         soc_headroom :=
           soc_headroom st - mq * self_efficiency self * 5 / 60;
         best_dc_price := best_dc_price st;
         best_ch_price := min2 (best_ch_price st) mc;
         warnings := warnings st |}
    else if ltb 0 (mq * 5 / 60) && leb (mq * 5 / 60) (soc_available st) then
      {| soc_available := soc_available st - mq * 5 / 60;
         soc_headroom := soc_headroom st + mq * 5 / 60;
         best_dc_price := max2 (best_dc_price st) mc;
         best_ch_price := best_ch_price st;
         warnings := warnings st |}
    else if ltb (mq * 5 / 60) (- soc_headroom st) then
      {| soc_available := self_socmax self - self_socmin self;
         soc_headroom := 0;
         best_dc_price := best_dc_price st;
         best_ch_price := min2 (best_ch_price st) mc;
         warnings := warnings st ++ [ChargeExceedsHeadroom t] |}
    else if gtb (mq * 5 / 60) (soc_available st) then
      {| soc_available := 0;
         soc_headroom := self_socmax self - self_socmin self;
         best_dc_price := max2 (best_dc_price st) mc;
         best_ch_price := best_ch_price st;
         warnings := warnings st ++ [DischargeExceedsAvailable t] |}
    else warn FaultyCases st.

(** The two checks that follow the branches. *)
Definition soc_checks (t : string) (st : capacity) : capacity :=
  let st' := if ltb (soc_available st) 0
             then warn (SocBelowMin t) st else st in
  if ltb (soc_headroom st') 0 then warn (SocAboveMax t) st' else st'.

(** The body of the loop over [enumerate(en_ledger)]. *)
Definition ledger_order (t : string) (st : capacity) (o : order)
  : capacity :=
  soc_checks t (ledger_branch t st o).

(** One period of the first loop over the horizon.  Both arms of the
    source seed the four lists of the period with the same slack offer;
    the orders of the period, if the ledger has any, then move the
    capacity. *)
Definition horizon_period (acc : blocks * capacity) (t : string)
  : blocks * capacity :=
  let '(bs, st) := acc in
  let bs' := {| dc_mc := dset t ([] ++ [0]) (dc_mc bs);
                dc_mq := dset t ([] ++ [self_dcmax self]) (dc_mq bs);
                ch_mc := dset t ([] ++ [0]) (ch_mc bs);
                ch_mq := dset t ([] ++ [self_chmax self]) (ch_mq bs) |} in
  match dget t ledger with
  | None => (bs', st)
  | Some en_ledger => (bs', fold_left (ledger_order t) en_ledger st)
  end.

Definition initial_capacity : capacity :=
  let initial_soc := status_soc (self_resource self) in
  {| soc_available := initial_soc - self_socmin self;
     soc_headroom := self_socmax self - initial_soc;
     best_dc_price := self_price_floor self;
     best_ch_price := self_price_ceiling self;
     warnings := [] |}.

Definition horizon_walk : blocks * capacity :=
  fold_left horizon_period (timestamps (self_market self))
    ({| dc_mc := []; dc_mq := []; ch_mc := []; ch_mq := [] |},
     initial_capacity).

(** [{t: order for t, order in ledger.items() if t > t_end}] *)
Definition post_market (t_end : string) : dict (list order) :=
  filter (fun kv => String.ltb t_end (fst kv)) ledger.

(** The prices of the orders beyond the horizon widen the best prices. *)
Definition widen (st : capacity) (o : order) : capacity :=
  {| soc_available := soc_available st;
     soc_headroom := soc_headroom st;
     best_dc_price := max2 (best_dc_price st) (snd o);
     best_ch_price := min2 (best_ch_price st) (snd o);
     warnings := warnings st |}.

Definition widen_all (post_market_ledger : dict (list order))
    (st : capacity) : capacity :=
  fold_left (fun st' kv => fold_left widen (snd kv) st')
    post_market_ledger st.

(** One period of the second loop: what is left of the physical limits
    is offered at the best known price. *)
Definition residual_period (st : capacity) (bs : blocks) (t : string)
  : result blocks :=
  qs <- lookup t (dc_mq bs) ;;
  let dc_capacity := self_dcmax self - sum qs in
  bs1 <- (if gtb dc_capacity (1 # 100) then
            cs <- lookup t (dc_mc bs) ;;
            Ok {| dc_mc := dset t (cs ++ [best_dc_price st]) (dc_mc bs);
                  dc_mq := dset t (qs ++ [dc_capacity]) (dc_mq bs);
                  ch_mc := ch_mc bs;
                  ch_mq := ch_mq bs |}
          else Ok bs) ;;
  qs' <- lookup t (ch_mq bs1) ;;
  let ch_capacity := self_chmax self - sum qs' in
  if gtb ch_capacity (1 # 100) then
    cs' <- lookup t (ch_mc bs1) ;;
    Ok {| dc_mc := dc_mc bs1;
          dc_mq := dc_mq bs1;
          ch_mc := dset t (cs' ++ [best_ch_price st]) (ch_mc bs1);
          ch_mq := dset t (qs' ++ [ch_capacity]) (ch_mq bs1) |}
  else Ok bs1.

Fixpoint residual_loop (st : capacity) (bs : blocks) (ts : list string)
  : result blocks :=
  match ts with
  | [] => Ok bs
  | t :: r => bs' <- residual_period st bs t ;; residual_loop st bs' r
  end.

(** The walk over the sorted orders beyond the horizon; the third arm
    leaves the loop. *)
Fixpoint soc_walk (post_market_sorted : list order)
    (remaining_capacity : Q) (soc_mq soc_mc : list Q)
  : Q * list Q * list Q :=
  match post_market_sorted with
  | [] => (remaining_capacity, soc_mq, soc_mc)
  | (mq, mc) :: rest =>
      if ltb 0 (mq * 5 / 60) && leb (mq * 5 / 60) remaining_capacity then
        soc_walk rest (remaining_capacity - mq * 5 / 60)
          (soc_mq ++ [mq]) (soc_mc ++ [mc])
      else if ltb 0 remaining_capacity
              && ltb remaining_capacity (mq * 5 / 60) then
        soc_walk rest 0 (soc_mq ++ [0]) (soc_mc ++ [mc])
      else if ltb remaining_capacity (1 # 100) then
        (remaining_capacity, soc_mq, soc_mc)
      else soc_walk rest remaining_capacity soc_mq soc_mc
  end.

(** The raw quantity and price lists of the end-of-horizon valuation, as
    they stand when [collate] is called. *)
Definition soc_valuation (post_market_ledger : dict (list order))
    (st : capacity) : list Q * list Q :=
  let post_market_list := List.concat (map snd post_market_ledger) in
  let post_market_sorted := sorted_desc post_market_list in
  let '(remaining_capacity, soc_mq, soc_mc) :=
    soc_walk post_market_sorted (soc_available st) [] [] in
  let '(soc_mq, soc_mc) :=
    if gtb remaining_capacity (1 # 100)
    then (soc_mq ++ [remaining_capacity],
          soc_mc ++ [self_price_ceiling self])
    else (soc_mq, soc_mc) in
  (soc_mq ++ [soc_headroom st], soc_mc ++ [0]).

Definition zeros_dict (ts : list string) : dict Q :=
  dict_of (map (fun t => (t, 0)) ts).

Definition _default_reserve_offer : dict Q :=
  zeros_dict (timestamps (self_market self)).

Definition _default_dispatch_capacity : dict Q * dict Q :=
  (dict_of (map (fun t => (t, self_chmax self))
              (timestamps (self_market self))),
   dict_of (map (fun t => (t, self_dcmax self))
              (timestamps (self_market self)))).

(** [_default_offer_constants(bid_soc=True)] *)
Definition _default_offer_constants (bid_soc_option : option bool)
  : constants :=
  {| soc_begin := status_soc (self_resource self);
     init_en := status_dispatch (self_resource self);
     init_status := 1;
     ramp_dn := 9999;
     ramp_up := 9999;
     c_socmax := self_socmax self;
     c_socmin := self_socmin self;
     eff_ch := self_efficiency self;
     eff_dc := 1;
     soc_end := self_socmin self;
     bid_soc := match bid_soc_option with Some b => b | None => false end |}.

Definition as_lists (d : dict (list Q)) : dict value :=
  map (fun kv => (fst kv, VList (snd kv))) d.

Definition _real_time_offer : result offer :=
  t_end <- max_str (timestamps (self_market self)) ;;
  let '(bs, st) := horizon_walk in
  let post_market_ledger := post_market t_end in
  let st := widen_all post_market_ledger st in
  bs <- residual_loop st bs (timestamps (self_market self)) ;;
  let '(soc_mq, soc_mc) := soc_valuation post_market_ledger st in
  let soc_offer := collate (self_binner self) soc_mq soc_mc in
  Ok (dset (self_rid self)
        {| block_ch_mc := as_lists (ch_mc bs);
           block_ch_mq := as_lists (ch_mq bs);
           block_dc_mc := as_lists (dc_mc bs);
           block_dc_mq := as_lists (dc_mq bs);
           block_soc_mc := dset t_end (VList (snd soc_offer)) [];
           block_soc_mq := dset t_end (VList (fst soc_offer)) [];
           cost_rgu := _default_reserve_offer;
           cost_rgd := _default_reserve_offer;
           cost_spr := _default_reserve_offer;
           cost_nsp := _default_reserve_offer;
           offer_chmax := fst _default_dispatch_capacity;
           offer_dcmax := snd _default_dispatch_capacity;
           offer_constants := _default_offer_constants (Some true) |}
        []).

End RealTime.

(* ================================================================== *)
(** * Offer processing *)

Definition is_number (v : value) : bool :=
  match v with
  | VInt _ | VFloat _ => true
  | _ => false
  end.

Definition is_list (v : value) : bool :=
  match v with
  | VList _ => true
  | _ => false
  end.

(** [not l] for an optional list argument *)
Definition no_list {A} (l : option (list A)) : bool :=
  match l with
  | None | Some [] => true
  | Some (_ :: _) => false
  end.

(** [l[i]] for an optional list argument *)
Definition subscript {A} (l : option (list A)) (i : Z) : result A :=
  match l with
  | None => Raise (TypeError "'NoneType' object is not subscriptable")
  | Some l' => getitem l' i
  end.

(** The debug line that [_offer_to_dicts] writes for a period: the
    offer "does not require binning", or its length "after binning". *)
Inductive handling : Type :=
| PassedThrough
| Binned.

Section OfferProcessing.

Variable self : Agent.

(** The body of the loop of [_offer_to_dicts]. *)
Definition offer_period (mq_list mc_list : option (list value))
    (i : Z) (time : string)
  : result (value * value * handling) :=
  mc <- subscript mc_list i ;;
  mq <- subscript mq_list i ;;
  if is_number mc && is_number mq then Ok (mq, mc, PassedThrough)
  else
    match mc, mq with
    | VList lmc, VList lmq =>
        assert (len lmc =? len lmq)%Z
          ("charge mc and mq have different length, period "
           ++ time)%string ;;;
        let offer := collate (self_binner self) lmq lmc in
        Ok (VList (fst offer), VList (snd offer), Binned)
    | _, _ =>
        Raise (TypeError
          ("unsupported charge offer types: mc is " ++ type_repr mc
           ++ ", mq is " ++ type_repr mq)%string)
    end.

Fixpoint offer_loop (mq_list mc_list : option (list value))
    (i : Z) (ts : list string) (mq_dict mc_dict : dict value)
    (trace : list handling)
  : result (dict value * dict value * list handling) :=
  match ts with
  | [] => Ok (mq_dict, mc_dict, trace)
  | time :: rest =>
      r <- offer_period mq_list mc_list i time ;;
      let '(mq, mc, h) := r in
      offer_loop mq_list mc_list (i + 1) rest
        (dset time mq mq_dict) (dset time mc mc_dict) (trace ++ [h])
  end.

(** [_offer_to_dicts], with the debug lines of its periods. *)
Definition offer_to_dicts_traced (mq_list mc_list : option (list value))
  : result (dict value * dict value * list handling) :=
  if no_list mq_list && no_list mc_list then
    let zeros := dict_of (map (fun t => (t, VInt 0))
                            (timestamps (self_market self))) in
    Ok (zeros, zeros, [])
  else
    offer_loop mq_list mc_list 0 (timestamps (self_market self)) [] [] [].

Definition _offer_to_dicts (mq_list mc_list : option (list value))
  : result (dict value * dict value) :=
  r <- offer_to_dicts_traced mq_list mc_list ;;
  Ok (fst r).

Definition with_block_dc_mc (new_block : dict value) (o : offer_body)
  : offer_body :=
  {| block_ch_mc := block_ch_mc o;
     block_ch_mq := block_ch_mq o;
     block_dc_mc := new_block;
     block_dc_mq := block_dc_mq o;
     block_soc_mc := block_soc_mc o;
     block_soc_mq := block_soc_mq o;
     cost_rgu := cost_rgu o;
     cost_rgd := cost_rgd o;
     cost_spr := cost_spr o;
     cost_nsp := cost_nsp o;
     offer_chmax := offer_chmax o;
     offer_dcmax := offer_dcmax o;
     offer_constants := offer_constants o |}.

Definition with_block_ch_mc (new_block : dict value) (o : offer_body)
  : offer_body :=
  {| block_ch_mc := new_block;
     block_ch_mq := block_ch_mq o;
     block_dc_mc := block_dc_mc o;
     block_dc_mq := block_dc_mq o;
     block_soc_mc := block_soc_mc o;
     block_soc_mq := block_soc_mq o;
     cost_rgu := cost_rgu o;
     cost_rgd := cost_rgd o;
     cost_spr := cost_spr o;
     cost_nsp := cost_nsp o;
     offer_chmax := offer_chmax o;
     offer_dcmax := offer_dcmax o;
     offer_constants := offer_constants o |}.

(** The new value of one period in [_increase_discharging_offers]; the
    message formats the type of the block, a [dict], not of the value. *)
Definition increased (adjustment : Q) (old_offer : value) : result value :=
  match old_offer with
  | VInt n => Ok (VFloat (inject_Z n + adjustment))
  | VList l => Ok (VList (map (fun mc => mc + adjustment) l))
  | _ => Raise (TypeError
           "discharge block type is unsupported. type=<class 'dict'>")
  end.

Definition decreased (adjustment : Q) (old_offer : value) : result value :=
  match old_offer with
  | VInt n => Ok (VFloat (inject_Z n - adjustment))
  | VList l => Ok (VList (map (fun mc => mc - adjustment) l))
  | _ => Raise (TypeError
           "charge block type is unsupported. type=<class 'dict'>")
  end.

Fixpoint adjust_block (f : value -> result value) (old_block : dict value)
    (new_block : dict value) : result (dict value) :=
  match old_block with
  | [] => Ok new_block
  | (t, old_offer) :: rest =>
      v <- f old_offer ;;
      adjust_block f rest (dset t v new_block)
  end.

Definition _increase_discharging_offers (offer0 : offer) (adjustment : Q)
  : result offer :=
  body <- lookup (self_rid self) offer0 ;;
  new_block <- adjust_block (increased adjustment) (block_dc_mc body) [] ;;
  Ok (dset (self_rid self) (with_block_dc_mc new_block body) offer0).

Definition _decrease_charging_offers (offer0 : offer) (adjustment : Q)
  : result offer :=
  body <- lookup (self_rid self) offer0 ;;
  new_block <- adjust_block (decreased adjustment) (block_ch_mc body) [] ;;
  Ok (dset (self_rid self) (with_block_ch_mc new_block body) offer0).

(** [make_me_an_offer]: the result is the dictionary handed to
    [_save_json].  [compute_offers] is [ou.compute_offers] of the
    platform, called with the resource and the timestamps.  The log
    line of the real-time branch formats [timestamps[0]] before the
    offer is built. *)
Definition make_me_an_offer
    (compute_offers : resource_info -> list string -> offer)
  : result offer :=
  let market_type := market_type (self_market self) in
  offer0 <- (if str_in "DAM" market_type then
               Ok (compute_offers (self_resource self)
                     (timestamps (self_market self)))
             else if str_in "RTM" market_type then
               getitem (timestamps (self_market self)) 0 ;;;
               _real_time_offer self
             else Raise (ValueError
                    ("Unable to find offer function for market_type="
                     ++ market_type)%string)) ;;
  _increase_discharging_offers offer0 1.

End OfferProcessing.

(* ================================================================== *)
(** * The scheduler and its linear program *)

Module LP.

(** The variables, by the names the scheduler gives them:
    ["c" + str(i)], ["d" + str(i)], ["b" + str(i)]. *)
Inductive var : Type :=
| c (i : nat)
| d (i : nat)
| b (i : nat).

(** [solver.NumVar(lb, ub, name)] *)
Record NumVar : Type := {
  lb : Q;
  ub : Q;
  name : var
}.

Inductive expr : Type :=
| Const (q : Q)
| V (x : var)
| Add (e1 e2 : expr)
| Sub (e1 e2 : expr)
| Scale (k : Q) (e : expr).

(** [lhs == rhs] *)
Record constraint : Type := {
  lhs : expr;
  rhs : expr
}.

(** What the solver holds when [Solve] is called; the objective is
    minimised. *)
Record model : Type := {
  variables : list NumVar;
  objective : expr;
  constraints : list constraint
}.

Definition assignment : Type := var -> Q.

Fixpoint eval (s : assignment) (e : expr) : Q :=
  match e with
  | Const q => q
  | V x => s x
  | Add e1 e2 => eval s e1 + eval s e2
  | Sub e1 e2 => eval s e1 - eval s e2
  | Scale k e' => k * eval s e'
  end.

Definition in_bounds (s : assignment) (v : NumVar) : bool :=
  leb (lb v) (s (name v)) && leb (s (name v)) (ub v).

Definition holds (s : assignment) (k : constraint) : bool :=
  Qeq_bool (eval s (lhs k)) (eval s (rhs k)).

Definition feasible (m : model) (s : assignment) : bool :=
  forallb (in_bounds s) (variables m) && forallb (holds s) (constraints m).

Inductive ResultStatus : Type :=
| OPTIMAL
| FEASIBLE
| INFEASIBLE
| UNBOUNDED
| ABNORMAL
| NOT_SOLVED.

(** A loaded solver: [Solve] gives the status and the values that
    [solution_value()] then reports. *)
Record Solver : Type := {
  Solve : model -> ResultStatus * assignment
}.

End LP.


Section Scheduler.

Variable self : Agent.

(** [pywraplp.Solver.CreateSolver]: [None] when the backend cannot be
    loaded. *)
Variable CreateSolver : string -> option LP.Solver.

Definition charge_vars (number_step : nat) : list LP.NumVar :=
  map (fun i => {| LP.lb := 0; LP.ub := self_chmax self;
                   LP.name := LP.c i |})
    (seq 0 number_step).

Definition discharge_vars (number_step : nat) : list LP.NumVar :=
  map (fun i => {| LP.lb := 0; LP.ub := self_dcmax self;
                   LP.name := LP.d i |})
    (seq 0 number_step).

Definition dasoc_vars (number_step : nat) : list LP.NumVar :=
  map (fun i => {| LP.lb := 0; LP.ub := self_socmax self;
                   LP.name := LP.b i |})
    (seq 0 (number_step + 1)).

(** The list [dasoc] after [dasoc[0] = 0]. *)
Definition dasoc (number_step : nat) : list LP.expr :=
  match map (fun v => LP.V (LP.name v)) (dasoc_vars number_step) with
  | [] => []
  | _ :: rest => LP.Const 0 :: rest
  end.

Definition balance (number_step : nat) (i : nat) : LP.constraint :=
  {| LP.lhs :=
       LP.Sub (LP.Add (nth i (dasoc number_step) (LP.Const 0))
                 (LP.Scale (self_efficiency self) (LP.V (LP.c i))))
         (LP.V (LP.d i));
     LP.rhs := nth (i + 1) (dasoc number_step) (LP.Const 0) |}.

(** The program as it stands at [solver.Solve()]. *)
Definition scheduler_model (prices : list Q) : LP.model :=
  let number_step := List.length prices in
  {| LP.variables :=
       charge_vars number_step ++ discharge_vars number_step
       ++ dasoc_vars number_step;
     LP.objective :=
       fold_left LP.Add
         (map (fun i => LP.Scale (nth i prices 0)
                          (LP.Sub (LP.V (LP.c i)) (LP.V (LP.d i))))
            (seq 0 number_step))
         (LP.Const 0);
     LP.constraints := map (balance number_step) (seq 0 number_step) |}.

Definition _scheduler (prices : list Q) : result (list Q * list Q) :=
  let number_step := List.length prices in
  match CreateSolver "GLOP" with
  | None => Raise (ImportError "Scheduler unable to load solver.")
  | Some solver =>
      let solution_value :=
        snd (LP.Solve solver (scheduler_model prices)) in
      let charge_list :=
        map (fun i => solution_value (LP.c i)) (seq 0 number_step) in
      let discharge_list :=
        map (fun i => solution_value (LP.d i)) (seq 0 number_step) in
      assert (gtb (sum (map Qabs charge_list)) 0)
             "scheduler: charge list has no values" ;;;
      assert (gtb (sum (map Qabs discharge_list)) 0)
             "scheduler: discharge list has no values" ;;;
      Ok (charge_list, discharge_list)
  end.

(** The four attributes that [_calculate_offer_curve] sets. *)
Record offer_curve : Type := {
  charge_mc : list Q;
  discharge_mc : list Q;
  charge_mq : list Q;
  discharge_mq : list Q
}.

Definition _calculate_offer_curve (prices : list Q) : result offer_curve :=
  mq <- _scheduler prices ;;
  let '(charge_mq, discharge_mq) := mq in
  mc <- _calculate_opportunity_costs self prices charge_mq discharge_mq ;;
  let '(charge_mc, discharge_mc) := mc in
  Ok {| charge_mc := charge_mc;
        discharge_mc := discharge_mc;
        charge_mq := charge_mq;
        discharge_mq := discharge_mq |}.

End Scheduler.

(* ================================================================== *)
(** * Day-ahead helpers *)

Section DayAhead.

Variable self : Agent.

(** [_process_efficiency]: a scheduled charge (negative) is scaled by
    the efficiency, the other quantities are kept. *)
Definition _process_efficiency (data : list Q) : list Q :=
  fold_left
    (fun processed_data num =>
       if ltb num 0
       then processed_data ++ [num * self_efficiency self]
       else processed_data ++ [num])
    data [].

End DayAhead.

(* ================================================================== *)
(** * Notions used by the statements *)

(** The capacity state accounts for the whole usable range. *)
Definition balanced (self : Agent) (st : capacity) : Prop :=
  soc_available st + soc_headroom st == self_socmax self - self_socmin self.

(** A binner that leaves the lists as they are, for the examples. *)
Definition plain_binner : Binner :=
  {| collate := fun mq mc => (mq, mc) |}.

(** A real-time call over two periods, at SoC 558: 430 MWh available,
    50 MWh of headroom. *)
Definition rt_market : market_info :=
  {| market_type := "RTM";
     timestamps := ["202401010000"; "202401010005"] |}.

Definition rt_resource (ledger : dict (list order)) : resource_info :=
  {| rid := "R00229";
     status_soc := 558;
     status_dispatch := 0;
     ledger_EN := ledger |}.

Definition rt_agent (ledger : dict (list order)) : Agent :=
  __init__ plain_binner 28 rt_market (rt_resource ledger).

(** One charge order of 120 MW at price 5 in the first period. *)
Definition rt_charge_agent : Agent :=
  rt_agent [("202401010000", [(-120, 5)])].

(** Three orders beyond the horizon and none in it. *)
Definition rt_post_agent : Agent :=
  rt_agent [("202401010010", [(600, 30); (-100, 20)]);
            ("202401010015", [(1200, 40)])].

(** A day-ahead call over five hourly periods. *)
Definition da_agent : Agent :=
  __init__ plain_binner 28
    {| market_type := "DAM";
       timestamps := ["202401010000"; "202401010100"; "202401010200";
                      "202401010300"; "202401010400"] |}
    (rt_resource []).

(** The state of charge that the balance constraints speak of: the
    constant 0 in period 0, the variable [b t] afterwards. *)
Definition soc_at (s : LP.assignment) (t : nat) : Q :=
  match t with
  | O => 0
  | S _ => s (LP.b t)
  end.

(** The cost that the scheduler minimises. *)
Definition purchase_cost (prices : list Q) (s : LP.assignment) : Q :=
  sum (map (fun i => nth i prices 0 * (s (LP.c i) - s (LP.d i)))
         (seq 0 (List.length prices))).

(** Charging at full power in every period, never discharging. *)
Definition always_charging : LP.assignment :=
  fun x =>
    match x with
    | LP.c _ => chmax
    | LP.d _ => 0
    | LP.b t => efficiency * chmax * inject_Z (Z.of_nat t)
    end.

(** A backend that reports the program infeasible and leaves the values
    [v] to be read back. *)
Definition infeasible_solver (v : Q) : LP.Solver :=
  {| LP.Solve := fun _ => (LP.INFEASIBLE, fun _ => v) |}.

(** Descending in the price. *)
Definition desc (x y : order) : Prop := snd y <= snd x.

(** The dictionary after [d[t] = v] for each of the periods in turn. *)
Definition fill {V} (v : V) (ts : list string) (dd : dict V) : dict V :=
  fold_left (fun d0 t => dset t v d0) ts dd.

(** The order of Python on the timestamps. *)
Definition str_le (s1 s2 : string) : Prop := String.ltb s2 s1 = false.

(** The energy of a quantity held for one dispatch interval. *)
Definition energy (mq : Q) : Q := mq * 5 / 60.

(** The capacity at SoC [socmin + available], before any order. *)
Definition capacity_at (available headroom : Q) : capacity :=
  {| soc_available := available;
     soc_headroom := headroom;
     best_dc_price := 0;
     best_ch_price := 999;
     warnings := [] |}.

(** The values that [_increase_discharging_offers] accepts. *)
Definition int_or_list (v : value) : Prop :=
  (exists n, v = VInt n) \/ (exists l, v = VList l).

(** Entry by entry: the same period, the value adjusted. *)
Definition adjusted_entry (f : value -> result value)
    (old new : string * value) : Prop :=
  fst new = fst old /\ f (snd old) = Ok (snd new).

(** An offer as [ou.compute_offers] may return it: an integer cost in
    one period, a list of costs in the other. *)
Definition sample_body : offer_body :=
  {| block_ch_mc := [];
     block_ch_mq := [];
     block_dc_mc := [("202401010000", VInt 3);
                     ("202401010005", VList [0; 5])];
     block_dc_mq := [];
     block_soc_mc := [];
     block_soc_mq := [];
     cost_rgu := [];
     cost_rgd := [];
     cost_spr := [];
     cost_nsp := [];
     offer_chmax := [];
     offer_dcmax := [];
     offer_constants := _default_offer_constants rt_charge_agent None |}.

Definition sample_offer : offer := [("R00229", sample_body)].

(** The same offer with the discharge costs raised by 1. *)
Definition sample_offer_raised : offer :=
  [("R00229",
    with_block_dc_mc [("202401010000", VFloat (3 + 1));
                      ("202401010005", VList [0 + 1; 5 + 1])]
      sample_body)].

(** The energy in store after [t] periods of an assignment, what has
    been charged and what has been discharged by then. *)
Definition stored (self : Agent) (s : LP.assignment) (t : nat) : Q :=
  sum (map (fun i => self_efficiency self * s (LP.c i) - s (LP.d i))
         (seq 0 t)).

Definition charged (s : LP.assignment) (t : nat) : Q :=
  sum (map (fun i => s (LP.c i)) (seq 0 t)).

Definition discharged (s : LP.assignment) (t : nat) : Q :=
  sum (map (fun i => s (LP.d i)) (seq 0 t)).

(** The schedule that never charges and never discharges. *)
Definition idle_schedule : LP.assignment := fun _ => 0.

(** What [_process_efficiency] makes of one quantity. *)
Definition processed (self : Agent) (num : Q) : Q :=
  if ltb num 0 then num * self_efficiency self else num.


(* ================================================================== *)
(** * Properties *)

(** ** Comparisons and dictionaries *)

Lemma ltb_lt (x y : Q) : ltb x y = true <-> x < y.
Proof.
  unfold ltb. rewrite Qlt_alt.
  destruct (x ?= y); split; intros H; congruence.
Qed.

Lemma ltb_ge (x y : Q) : ltb x y = false <-> y <= x.
Proof.
  rewrite <- Bool.not_true_iff_false, ltb_lt.
  split; [apply Qnot_lt_le | apply Qle_not_lt].
Qed.

Lemma leb_le (x y : Q) : leb x y = true <-> x <= y.
Proof.
  unfold leb. rewrite Qle_alt.
  destruct (x ?= y); split; intros H; congruence.
Qed.

Lemma gtb_gt (x y : Q) : gtb x y = true <-> y < x.
Proof. apply ltb_lt. Qed.

Lemma dget_dset_same {V} (k : string) (v : V) (dd : dict V) :
  dget k (dset k v dd) = Some v.
Proof.
  induction dd as [|[k' v'] r IH]; simpl.
  - now rewrite String.eqb_refl.
  - destruct (String.eqb k k') eqn:E; simpl; rewrite E; auto.
Qed.

Lemma dget_dset_other {V} (k k' : string) (v : V) (dd : dict V) :
  k <> k' -> dget k (dset k' v dd) = dget k dd.
Proof.
  intros Hne. induction dd as [|[k2 v2] r IH]; simpl.
  - destruct (String.eqb_spec k k'); congruence.
  - destruct (String.eqb_spec k' k2) as [->|]; simpl.
    + destruct (String.eqb_spec k k2); congruence.
    + destruct (String.eqb_spec k k2); auto.
Qed.

Lemma dset_values {V} (k : string) (v : V) (dd : dict V) (x : V) :
  In x (map snd (dset k v dd)) -> x = v \/ In x (map snd dd).
Proof.
  induction dd as [|[k' v'] r IH]; simpl.
  - intros [<-|[]]; auto.
  - destruct (String.eqb k k'); simpl.
    + intros [<-|H]; auto.
    + intros [<-|H]; auto. destruct (IH H); auto.
Qed.

Lemma dict_of_values {V} (pairs : list (string * V)) (x : V) :
  In x (map snd (dict_of pairs)) -> In x (map snd pairs).
Proof.
  unfold dict_of.
  assert (G : forall acc,
    In x (map snd (fold_left (fun d0 kv => dset (fst kv) (snd kv) d0)
                     pairs acc)) ->
    In x (map snd acc) \/ In x (map snd pairs)).
  { induction pairs as [|[k v] r IH]; simpl; intros acc H; auto.
    destruct (IH _ H) as [H1|H1]; auto.
    destruct (dset_values _ _ _ _ H1); auto. }
  intros H. destruct (G [] H) as [[]|]; auto.
Qed.

Lemma dset_fresh {V} (k : string) (v : V) (dd : dict V) :
  ~ In k (map fst dd) -> dset k v dd = dd ++ [(k, v)].
Proof.
  induction dd as [|[k' v'] r IH]; simpl; intros H; auto.
  destruct (String.eqb_spec k k') as [->|]; [tauto|].
  f_equal. apply IH. tauto.
Qed.

(** A dictionary built from pairs with distinct keys is the list of
    pairs. *)
Lemma dict_of_distinct {V} (pairs : list (string * V)) :
  NoDup (map fst pairs) -> dict_of pairs = pairs.
Proof.
  unfold dict_of.
  assert (G : forall acc,
    NoDup (map fst (acc ++ pairs)) ->
    fold_left (fun d0 kv => dset (fst kv) (snd kv) d0) pairs acc
    = acc ++ pairs).
  { induction pairs as [|[k v] r IH]; simpl; intros acc H.
    - now rewrite app_nil_r.
    - rewrite dset_fresh.
      + rewrite IH; rewrite <- app_assoc; auto.
      + rewrite map_app in H. simpl in H.
        apply NoDup_remove_2 in H. rewrite in_app_iff in *. tauto. }
  intros H. apply (G []). exact H.
Qed.

Lemma combine_fst_distinct {V} (ks : list string) (vs : list V) :
  NoDup ks -> NoDup (map fst (List.combine ks vs)).
Proof.
  intros H. revert vs.
  induction H as [|k ks Hk Hnd IH]; intros [|v vs]; simpl; try constructor.
  - intros Hin. apply Hk.
    apply in_map_iff in Hin. destruct Hin as [[k' v'] [<- Hin]].
    now apply in_combine_l in Hin.
  - apply IH.
Qed.

(** ** The ledger walk keeps the capacity balanced (C9) *)

Lemma warn_balanced (self : Agent) (w : warning) (st : capacity) :
  balanced self st -> balanced self (warn w st).
Proof. exact (fun H => H). Qed.

Lemma initial_capacity_balanced (self : Agent) :
  balanced self (initial_capacity self).
Proof. unfold balanced, initial_capacity. simpl. ring. Qed.

Lemma ledger_branch_balanced (self : Agent) (t : string) (st : capacity)
    (o : order) :
  balanced self st -> balanced self (ledger_branch self t st o).
Proof.
  intros H. destruct o as [mq mc]. unfold ledger_branch, balanced in *.
  repeat match goal with
         | |- context [if ?b then _ else _] => destruct b
         end; simpl; try lra; exact H.
Qed.

Lemma soc_checks_balanced (self : Agent) (t : string) (st : capacity) :
  balanced self st -> balanced self (soc_checks t st).
Proof.
  intros H. unfold soc_checks.
  destruct (ltb (soc_available st) 0); cbv zeta;
    match goal with
    | |- context [if ?b then _ else _] => destruct b
    end; auto using warn_balanced.
Qed.

Lemma ledger_order_balanced (self : Agent) (t : string) (st : capacity)
    (o : order) :
  balanced self st -> balanced self (ledger_order self t st o).
Proof.
  intros H. apply soc_checks_balanced, ledger_branch_balanced, H.
Qed.

Lemma ledger_orders_balanced (self : Agent) (t : string)
    (en_ledger : list order) (st : capacity) :
  balanced self st ->
  balanced self (fold_left (ledger_order self t) en_ledger st).
Proof.
  revert st. induction en_ledger as [|o r IH]; simpl; intros st H; auto.
  apply IH, ledger_order_balanced, H.
Qed.

Lemma horizon_period_balanced (self : Agent) (acc : blocks * capacity)
    (t : string) :
  balanced self (snd acc) ->
  balanced self (snd (horizon_period self acc t)).
Proof.
  destruct acc as [bs st]. unfold horizon_period. simpl.
  destruct (dget t _); simpl; auto using ledger_orders_balanced.
Qed.

(** C9.  The sum [soc_available + soc_headroom] is [socmax - socmin] at
    the initialisation from the current SoC, every ledger entry keeps it
    (whichever of the branches it takes), and so it holds after any
    number of horizon periods of the ledger walk. *)
Theorem ledger_walk_keeps_capacity_balanced (self : Agent) :
  balanced self (initial_capacity self)
  /\ (forall t st o,
        balanced self st -> balanced self (ledger_order self t st o))
  /\ (forall ts bs,
        balanced self
          (snd (fold_left (horizon_period self) ts
                  (bs, initial_capacity self)))).
Proof.
  split; [apply initial_capacity_balanced|].
  split; [intros; now apply ledger_order_balanced|].
  intros ts bs.
  assert (G : forall acc, balanced self (snd acc) ->
            balanced self (snd (fold_left (horizon_period self) ts acc))).
  { induction ts as [|t r IH]; simpl; intros acc H; auto.
    apply IH, horizon_period_balanced, H. }
  apply G. apply initial_capacity_balanced.
Qed.

Lemma ledger_walk_keeps_capacity_balanced_witness :
  balanced rt_charge_agent
    (ledger_order rt_charge_agent "202401010000"
       (initial_capacity rt_charge_agent) (-120, 5)).
Proof.
  apply (proj1 (proj2 (ledger_walk_keeps_capacity_balanced
                         rt_charge_agent))).
  vm_compute. reflexivity.
Defined.

(** The four branches in turn, from 430 MWh available and 50 MWh of
    headroom: a charge and a discharge within the bounds, then a charge
    and a discharge beyond them, each of which is clamped with one
    warning. *)
Example ledger_branches :
  let t := "202401010000" in
  let st := fold_left (ledger_order rt_charge_agent t)
              [(-120, 5); (600, 30); (-6000, 2); (12000, 40)]
              (initial_capacity rt_charge_agent) in
  soc_available st == 0 /\ soc_headroom st == 480
  /\ best_ch_price st == 2 /\ best_dc_price st == 40
  /\ warnings st = [ChargeExceedsHeadroom t; DischargeExceedsAvailable t].
Proof. repeat split. Qed.

(** ** An order that charges within the headroom (C1) *)

(** What the first branch computes, for any order it accepts. *)
Lemma in_bounds_charge_branch (self : Agent) (t : string) (st : capacity)
    (mq mc : Q) :
  - soc_headroom st <= mq * 5 / 60 -> mq * 5 / 60 < 0 ->
  ledger_branch self t st (mq, mc)
  = {| soc_available :=
         soc_available st + mq * self_efficiency self * 5 / 60;
       soc_headroom :=
         soc_headroom st - mq * self_efficiency self * 5 / 60;
       best_dc_price := best_dc_price st;
       best_ch_price := min2 (best_ch_price st) mc;
       warnings := warnings st |}.
Proof.
  intros H1 H2. unfold ledger_branch.
  apply leb_le in H1. apply ltb_lt in H2. now rewrite H1, H2.
Qed.

Lemma soc_checks_quantities (t : string) (st : capacity) :
  soc_available (soc_checks t st) = soc_available st
  /\ soc_headroom (soc_checks t st) = soc_headroom st
  /\ best_ch_price (soc_checks t st) = best_ch_price st
  /\ best_dc_price (soc_checks t st) = best_dc_price st.
Proof.
  unfold soc_checks. destruct (ltb (soc_available st) 0); cbv zeta;
    match goal with
    | |- context [if ?b then _ else _] => destruct b
    end; simpl; auto.
Qed.

(** With a positive efficiency, every such order lowers the available
    energy and raises the headroom. *)
Lemma in_bounds_charge_direction (self : Agent) (t : string)
    (st : capacity) (mq mc : Q) :
  0 < self_efficiency self ->
  - soc_headroom st <= mq * 5 / 60 -> mq * 5 / 60 < 0 ->
  soc_available (ledger_order self t st (mq, mc)) < soc_available st
  /\ soc_headroom st < soc_headroom (ledger_order self t st (mq, mc))
  /\ best_ch_price (ledger_order self t st (mq, mc))
     = min2 (best_ch_price st) mc.
Proof.
  intros He H1 H2. unfold ledger_order.
  destruct (soc_checks_quantities t (ledger_branch self t st (mq, mc)))
    as (-> & -> & -> & _).
  rewrite in_bounds_charge_branch by assumption. simpl.
  assert (E : mq * 5 / 60 == mq * (1 # 12)) by field.
  assert (E' : mq * self_efficiency self * 5 / 60
               == mq * self_efficiency self * (1 # 12)) by field.
  rewrite E in H2.
  assert (Hm : mq * self_efficiency self < 0) by nra.
  repeat split; lra.
Qed.

(** C1.  The code at a charge order within the headroom: SoC 558 leaves
    50 MWh of headroom and 430 MWh available; the order [(-120, 5)] is
    10 MWh of charge.  The code lowers the available energy by 8.92 and
    raises the headroom by 8.92, the opposite of what a charge does; the
    best charge price becomes [min(999, 5)]. *)
Theorem in_bounds_charge_moves_capacity_backwards :
  let st := initial_capacity rt_charge_agent in
  let st' := snd (horizon_walk rt_charge_agent) in
  soc_available st == 430 /\ soc_headroom st == 50
  /\ - soc_headroom st <= -120 * 5 / 60 /\ -120 * 5 / 60 < 0
  /\ soc_available st' == 430 - 8.92
  /\ soc_headroom st' == 50 + 8.92
  /\ soc_available st' < soc_available st
  /\ soc_headroom st < soc_headroom st'
  /\ best_ch_price st' = min2 999 5
  /\ warnings st' = [].
Proof.
  cbv zeta. repeat split; vm_compute; congruence.
Qed.

(** ** The opportunity-cost engine (C3, C5, C10) *)

Lemma where_from_none {A} (p : A -> bool) (l : list A) (k : Z) :
  (forall x, In x l -> p x = false) -> where_from p k l = [].
Proof.
  revert k. induction l as [|x r IH]; simpl; intros k H; auto.
  rewrite (H x) by auto. apply IH. auto.
Qed.

Lemma combine_values {V} (ks : list string) (vs : list V) (x : V) :
  In x (map snd (List.combine ks vs)) -> In x vs.
Proof.
  intros H. apply in_map_iff in H. destruct H as [[k v] [<- H]].
  now apply in_combine_r in H.
Qed.

(** C3.  Prices [10, 10, 50, 50], a full charge in period 0 and a full
    discharge in period 2, on four distinct periods: the engine returns
    its two cost lists, the discharge cost of period 2 is the charge
    price 10 divided by the efficiency, and the charge cost of period 0
    is at most the discharge price 50. *)
Theorem single_cycle_costs (binner : Binner) (time_step : Z)
    (kind : string) (ts : list string) (resource : resource_info) :
  NoDup ts -> List.length ts = 4%nat ->
  let self := __init__ binner time_step
                {| market_type := kind; timestamps := ts |} resource in
  exists charge_cost discharge_cost c0 d2,
    _calculate_opportunity_costs self [10; 10; 50; 50]
      [chmax; 0; 0; 0] [0; 0; dcmax; 0]
    = Ok (charge_cost, discharge_cost)
    /\ nth_error discharge_cost 2 = Some d2
    /\ d2 == 10 / efficiency
    /\ nth_error charge_cost 0 = Some c0
    /\ c0 <= 50.
Proof.
  intros Hnd Hlen self.
  destruct ts as [|t0 [|t1 [|t2 [|t3 [|]]]]]; try discriminate.
  unfold _calculate_opportunity_costs.
  rewrite dict_of_distinct by (apply combine_fst_distinct; exact Hnd).
  vm_compute.
  do 4 eexists. split; [reflexivity|].
  repeat split; try reflexivity; discriminate.
Qed.

Lemma single_cycle_costs_witness :
  exists charge_cost discharge_cost c0 d2,
    _calculate_opportunity_costs
      (__init__ plain_binner 28
         {| market_type := "DAM";
            timestamps := ["202401010000"; "202401010100";
                           "202401010200"; "202401010300"] |}
         (rt_resource []))
      [10; 10; 50; 50] [chmax; 0; 0; 0] [0; 0; dcmax; 0]
    = Ok (charge_cost, discharge_cost)
    /\ nth_error discharge_cost 2 = Some d2
    /\ d2 == 10 / efficiency
    /\ nth_error charge_cost 0 = Some c0
    /\ c0 <= 50.
Proof.
  apply (single_cycle_costs plain_binner 28 "DAM"
           ["202401010000"; "202401010100"; "202401010200"; "202401010300"]
           (rt_resource [])).
  - repeat constructor; simpl; intuition discriminate.
  - reflexivity.
Defined.

(** The two cost lists of that cycle, period by period: a charge at
    the start, an idle period between the cycle's ends, the discharge,
    and an idle period after it. *)
Example single_cycle_cost_lists :
  _calculate_opportunity_costs
    (__init__ plain_binner 28
       {| market_type := "DAM";
          timestamps := ["202401010000"; "202401010100";
                         "202401010200"; "202401010300"] |}
       (rt_resource []))
    [10; 10; 50; 50] [chmax; 0; 0; 0] [0; 0; dcmax; 0]
  = Ok ([10; 10; (50 - 10) * efficiency - 50; 0],
        [10 + 0.01; 50; 10 / efficiency; 50 / efficiency]).
Proof. vm_compute. reflexivity. Qed.

(** A charging period before the last one with no discharge after it:
    the search for the next discharge raises, and the fallback is never
    reached. *)
Lemma charge_without_later_discharge (self : Agent)
    (combined_list prices : list Q) (idx : Z) :
  (idx < len combined_list - 1)%Z ->
  (forall v, In v (slice combined_list (Some (idx + 1)%Z) None) ->
             ~ 0 < v) ->
  _calc_oc_charge self combined_list prices idx = Raise StopIteration.
Proof.
  intros Hlt Hno. unfold _calc_oc_charge.
  apply Z.ltb_lt in Hlt. rewrite Hlt.
  unfold indices. rewrite where_from_none; [reflexivity|].
  intros v Hv. apply Bool.not_true_iff_false. intros Hp.
  apply gtb_gt in Hp. exact (Hno v Hv Hp).
Qed.

(** C5.  The code where a charging period has no later discharge.  Net
    flow [-125, 0, 125, -125, 0]: period 3 charges and nothing after it
    discharges.  The cost computation for period 3 raises
    [StopIteration], and so does the whole engine; no cost is returned
    from the fallback index.  In the last period the fallback is used. *)
Theorem charge_after_last_discharge_raises :
  (forall v, In v (slice [-125; 0; 125; -125; 0] (Some 4%Z) None) ->
             ~ 0 < v)
  /\ _calc_oc_charge da_agent [-125; 0; 125; -125; 0]
       [10; 10; 50; 10; 10] 3 = Raise StopIteration
  /\ _calculate_opportunity_costs da_agent [10; 10; 50; 10; 10]
       [125; 0; 0; 125; 0] [0; 0; 125; 0; 0] = Raise StopIteration
  /\ exists oc, _calc_oc_charge da_agent [-125; 0; 125; 0; -125]
                  [10; 10; 50; 10; 10] 4 = Ok oc.
Proof.
  split.
  - intros v [<-|[]]. discriminate.
  - repeat split; try (vm_compute; reflexivity).
    eexists. vm_compute. reflexivity.
Qed.

(** C10.  A schedule with no charging period, or with no discharging
    period, stops the engine at one of its two first assertions,
    whatever the prices are. *)
Theorem engine_needs_charge_and_discharge (self : Agent)
    (prices charge_mq discharge_mq : list Q) :
  (forall v, In v (combine_flows charge_mq discharge_mq) -> ~ v < 0)
  \/ (forall v, In v (combine_flows charge_mq discharge_mq) -> ~ 0 < v) ->
  _calculate_opportunity_costs self prices charge_mq discharge_mq
  = Raise (AssertionError "t1_ch is not an int")
  \/ _calculate_opportunity_costs self prices charge_mq discharge_mq
     = Raise (AssertionError "t_last_dis is not an int").
Proof.
  intros H. unfold _calculate_opportunity_costs.
  destruct H as [Hno|Hno].
  - left. unfold indices. rewrite where_from_none; [reflexivity|].
    intros v Hv. apply Bool.not_true_iff_false. intros Hp.
    apply ltb_lt in Hp.
    apply dict_of_values, combine_values in Hv. exact (Hno v Hv Hp).
  - destruct (next_or_None _); [right|left; reflexivity].
    unfold last_positive, indices. rewrite where_from_none; [reflexivity|].
    intros v Hv. apply Bool.not_true_iff_false. intros Hp.
    apply gtb_gt in Hp. exact (Hno v Hv Hp).
Qed.

Lemma engine_needs_charge_and_discharge_witness :
  _calculate_opportunity_costs da_agent [10; 10; 50; 10; 10]
    [0; 0; 0; 0; 0] [0; 0; 125; 0; 0]
  = Raise (AssertionError "t1_ch is not an int")
  \/ _calculate_opportunity_costs da_agent [10; 10; 50; 10; 10]
       [0; 0; 0; 0; 0] [0; 0; 125; 0; 0]
     = Raise (AssertionError "t_last_dis is not an int").
Proof.
  apply (engine_needs_charge_and_discharge da_agent).
  left. intros v Hv.
  vm_compute in Hv.
  repeat (destruct Hv as [<-|Hv]; [discriminate|]). destruct Hv.
Defined.

(** ** The linear program of the scheduler (C2, C7) *)

Lemma forallb_map_seq {A} (f : A -> bool) (g : nat -> A) (a n : nat) :
  forallb f (map g (seq a n)) = true
  <-> forall i, (a <= i < a + n)%nat -> f (g i) = true.
Proof.
  rewrite forallb_forall. split.
  - intros H i Hi. apply H, in_map, in_seq, Hi.
  - intros H x Hx. apply in_map_iff in Hx. destruct Hx as [i [<- Hi]].
    apply H, in_seq, Hi.
Qed.

Lemma in_bounds_iff (s : LP.assignment) (v : LP.NumVar) :
  LP.in_bounds s v = true
  <-> LP.lb v <= s (LP.name v) <= LP.ub v.
Proof.
  unfold LP.in_bounds. now rewrite Bool.andb_true_iff, !leb_le.
Qed.

Lemma eval_dasoc (self : Agent) (s : LP.assignment) (n i : nat) :
  (i <= n)%nat ->
  LP.eval s (nth i (dasoc self n) (LP.Const 0)) = soc_at s i.
Proof.
  intros Hi. unfold dasoc, dasoc_vars.
  rewrite Nat.add_1_r. rewrite <- cons_seq. simpl map.
  destruct i as [|i]; [reflexivity|].
  simpl nth. rewrite map_map. simpl.
  rewrite (nth_indep _ _ (LP.V (LP.b (S (List.length (seq 1 n))))))
    by (rewrite length_map, length_seq; lia).
  rewrite (map_nth (fun x => LP.V (LP.b x))).
  rewrite seq_nth by lia. reflexivity.
Qed.

Lemma holds_balance (self : Agent) (s : LP.assignment) (n i : nat) :
  (i < n)%nat ->
  LP.holds s (balance self n i) = true
  <-> soc_at s (i + 1)
      == soc_at s i + self_efficiency self * s (LP.c i) - s (LP.d i).
Proof.
  intros Hi. unfold LP.holds, balance. simpl.
  rewrite Qeq_bool_iff, !eval_dasoc by lia.
  split; intros H; now rewrite H.
Qed.

Lemma eval_fold_Add (s : LP.assignment) (l : list LP.expr) (e : LP.expr) :
  LP.eval s (fold_left LP.Add l e)
  = fold_left Qplus (map (LP.eval s) l) (LP.eval s e).
Proof.
  revert e. induction l as [|x r IH]; simpl; intros e; auto.
Qed.

(** C2, as the code has it.  An assignment satisfies the program that
    the scheduler builds exactly when charge and discharge stay within
    [0, chmax] and [0, dcmax], every state-of-charge variable stays
    within [0, socmax], and the state of charge follows the balance
    equation; the state of charge that the constraints use is the
    constant 0 in period 0 and the variable of the period afterwards;
    the objective is the purchase cost. *)
Theorem scheduler_model_meaning (self : Agent) (prices : list Q)
    (s : LP.assignment) :
  (LP.feasible (scheduler_model self prices) s = true
   <-> (forall t, (t < List.length prices)%nat ->
          0 <= s (LP.c t) <= self_chmax self
          /\ 0 <= s (LP.d t) <= self_dcmax self)
       /\ (forall t, (t <= List.length prices)%nat ->
             0 <= s (LP.b t) <= self_socmax self)
       /\ (forall t, (t < List.length prices)%nat ->
             soc_at s (t + 1)
             == soc_at s t + self_efficiency self * s (LP.c t)
                - s (LP.d t)))
  /\ (forall t, (t <= List.length prices)%nat ->
        LP.eval s (nth t (dasoc self (List.length prices)) (LP.Const 0))
        = soc_at s t)
  /\ soc_at s 0 = 0
  /\ LP.eval s (LP.objective (scheduler_model self prices))
     = purchase_cost prices s.
Proof.
  split.
  - unfold LP.feasible, scheduler_model. simpl.
    rewrite !forallb_app, !Bool.andb_true_iff.
    unfold charge_vars, discharge_vars, dasoc_vars.
    rewrite !forallb_map_seq.
    split.
    + intros [(Hc & Hd & Hb) Hk]. repeat split.
      * apply (proj1 (in_bounds_iff s _) (Hc t ltac:(lia))).
      * apply (proj1 (in_bounds_iff s _) (Hc t ltac:(lia))).
      * apply (proj1 (in_bounds_iff s _) (Hd t ltac:(lia))).
      * apply (proj1 (in_bounds_iff s _) (Hd t ltac:(lia))).
      * apply (proj1 (in_bounds_iff s _) (Hb t ltac:(lia))).
      * apply (proj1 (in_bounds_iff s _) (Hb t ltac:(lia))).
      * intros t Ht.
        apply (proj1 (holds_balance self s _ t Ht)). apply Hk. lia.
    + intros (Hcd & Hb & Hk). repeat split.
      * intros i Hi. apply in_bounds_iff.
        exact (proj1 (Hcd i ltac:(lia))).
      * intros i Hi. apply in_bounds_iff.
        exact (proj2 (Hcd i ltac:(lia))).
      * intros i Hi. apply in_bounds_iff.
        exact (Hb i ltac:(lia)).
      * intros i Hi.
        apply (proj2 (holds_balance self s (List.length prices) i
                        ltac:(lia))).
        apply Hk. lia.
  - split; [intros t Ht; now apply eval_dasoc|].
    split; [reflexivity|].
    unfold scheduler_model, purchase_cost, sum. simpl.
    rewrite eval_fold_Add, map_map. reflexivity.
Qed.

(** The bound [socmax - socmin] of the specification does not hold: over
    five periods, charging at full power satisfies the program and
    reaches 557.5, above 480. *)
Lemma soc_bound_is_not_capacity :
  ~ (forall s t,
       LP.feasible (scheduler_model da_agent [1; 1; 1; 1; 1]) s = true ->
       (t <= 5)%nat ->
       soc_at s t <= self_socmax da_agent - self_socmin da_agent).
Proof.
  intros H.
  assert (F : LP.feasible (scheduler_model da_agent [1; 1; 1; 1; 1])
                always_charging = true) by (vm_compute; reflexivity).
  specialize (H always_charging 5%nat F (le_n _)).
  vm_compute in H. apply H. reflexivity.
Qed.

(** A solver that cannot be loaded stops the scheduler, and with it the
    computation of the offer curve. *)
Lemma scheduler_without_solver (self : Agent)
    (CreateSolver : string -> option LP.Solver) (prices : list Q) :
  CreateSolver "GLOP" = None ->
  _scheduler self CreateSolver prices
  = Raise (ImportError "Scheduler unable to load solver.").
Proof. intros H. unfold _scheduler. now rewrite H. Qed.

(** The status of the solve plays no part in [_scheduler].  Without a
    solver the scheduler, and the offer-curve computation that calls
    it, stop with the import error.  With a solver the values read back
    are the schedule unless the charge values or the discharge values
    are all zero, which stops the scheduler at its own assertions. *)
Lemma scheduler_failure_modes (self : Agent)
    (CreateSolver : string -> option LP.Solver) (prices : list Q) :
  (CreateSolver "GLOP" = None ->
   _scheduler self CreateSolver prices
   = Raise (ImportError "Scheduler unable to load solver.")
   /\ _calculate_offer_curve self CreateSolver prices
      = Raise (ImportError "Scheduler unable to load solver."))
  /\ (forall solver, CreateSolver "GLOP" = Some solver ->
      let values := snd (LP.Solve solver (scheduler_model self prices)) in
      let charge_list :=
        map (fun i => values (LP.c i)) (seq 0 (List.length prices)) in
      let discharge_list :=
        map (fun i => values (LP.d i)) (seq 0 (List.length prices)) in
      _scheduler self CreateSolver prices
      = if negb (gtb (sum (map Qabs charge_list)) 0)
        then Raise (AssertionError "scheduler: charge list has no values")
        else if negb (gtb (sum (map Qabs discharge_list)) 0)
        then Raise (AssertionError
                      "scheduler: discharge list has no values")
        else Ok (charge_list, discharge_list)).
Proof.
  split.
  - intros H. unfold _calculate_offer_curve.
    now rewrite (scheduler_without_solver self CreateSolver prices H).
  - intros solver H. cbv zeta. unfold _scheduler. rewrite H.
    destruct (gtb (sum (map Qabs (map _ _))) 0); simpl; [|reflexivity].
    destruct (gtb _ 0); reflexivity.
Qed.

Lemma scheduler_failure_modes_witness :
  _scheduler da_agent (fun _ => None) [10; 10; 50; 50]
  = Raise (ImportError "Scheduler unable to load solver.")
  /\ _calculate_offer_curve da_agent (fun _ => None) [10; 10; 50; 50]
     = Raise (ImportError "Scheduler unable to load solver.").
Proof.
  apply (proj1 (scheduler_failure_modes da_agent (fun _ => None)
                  [10; 10; 50; 50])).
  reflexivity.
Defined.

(** ** Scalars, lists and other values in the offer blocks (C8) *)

(** Against the specification.  In [_offer_to_dicts] a scalar cost next
    to a list of quantities raises the type error although each value is
    a number or a list, and the message names the two types but not the
    period.  In [_increase_discharging_offers] an integer does not pass
    through unchanged, it is raised by the adjustment. *)
Lemma mixed_kinds_raise :
  offer_period rt_charge_agent (Some [VList [1]]) (Some [VInt 5]) 0
    "202401010000"
  = Raise (TypeError
      "unsupported charge offer types: mc is <class 'int'>, mq is <class 'list'>")
  /\ is_number (VInt 5) || is_list (VInt 5) = true
  /\ is_number (VList [1]) || is_list (VList [1]) = true
  /\ str_in "202401010000"
       "unsupported charge offer types: mc is <class 'int'>, mq is <class 'list'>"
     = false
  /\ increased 1 (VInt 3) = Ok (VFloat (3 + 1)).
Proof. repeat split; reflexivity. Qed.

(** C8, as the code has it.  In [_offer_to_dicts], for the cost [mc]
    and the quantity [mq] of a period: two numbers pass through as they
    are and the binner is not called; the type error is raised exactly
    when the two are neither both numbers nor both lists, and its
    message names the two types.  In [_increase_discharging_offers] an
    integer becomes the float raised by the adjustment, a list is raised
    entry by entry, and a string or [None] raises a type error. *)
Theorem offer_value_kinds (self : Agent) (mq_list mc_list : list value)
    (i : Z) (time : string) (mq mc : value) :
  getitem mc_list i = Ok mc -> getitem mq_list i = Ok mq ->
  let r := offer_period self (Some mq_list) (Some mc_list) i time in
  (is_number mc && is_number mq = true -> r = Ok (mq, mc, PassedThrough))
  /\ ((exists msg, r = Raise (TypeError msg))
      <-> is_number mc && is_number mq = false
          /\ is_list mc && is_list mq = false)
  /\ (forall msg, r = Raise (TypeError msg) ->
        msg = ("unsupported charge offer types: mc is " ++ type_repr mc
               ++ ", mq is " ++ type_repr mq)%string)
  /\ (forall adjustment n,
        increased adjustment (VInt n)
        = Ok (VFloat (inject_Z n + adjustment)))
  /\ (forall adjustment l,
        increased adjustment (VList l)
        = Ok (VList (map (fun x => x + adjustment) l)))
  /\ (forall adjustment v, v = VNone \/ (exists s, v = VStr s) ->
        exists msg, increased adjustment v = Raise (TypeError msg)).
Proof.
  intros Hmc Hmq r. subst r. unfold offer_period, subscript.
  rewrite Hmc, Hmq. simpl.
  split; [intros ->; reflexivity|].
  split; [split|].
  - intros [msg H].
    destruct mc, mq; simpl in *; try discriminate; auto;
      unfold assert in H; destruct (len l =? len l0)%Z; discriminate.
  - intros [H1 H2]. rewrite H1.
    destruct mc, mq; simpl in *; try discriminate; eexists; reflexivity.
  - split; [|repeat split].
    + intros msg H.
      destruct mc, mq; simpl in *; try discriminate; try congruence;
        unfold assert in H; destruct (len l =? len l0)%Z; discriminate.
    + intros adjustment v [->|[s ->]]; eexists; reflexivity.
Qed.

Lemma offer_value_kinds_witness :
  offer_period rt_charge_agent (Some [VFloat 125]) (Some [VInt 7]) 0
    "202401010000"
  = Ok (VFloat 125, VInt 7, PassedThrough).
Proof.
  apply (offer_value_kinds rt_charge_agent [VFloat 125] [VInt 7] 0
           "202401010000" (VFloat 125) (VInt 7));
    reflexivity.
Defined.

(** What [_increase_discharging_offers] does with a float, and the
    message of its type error, which formats the type of the block. *)
Lemma increased_float (adjustment x : Q) :
  increased adjustment (VFloat x)
  = Raise (TypeError
      "discharge block type is unsupported. type=<class 'dict'>").
Proof. reflexivity. Qed.

(** ** The real-time offer (C4, C6) *)

Lemma fill_cons {V} (v : V) (a : string) (r : list string) (dd : dict V) :
  fill v (a :: r) dd = fill v r (dset a v dd).
Proof. reflexivity. Qed.

Lemma fill_get_other {V} (v : V) (ts : list string) (dd : dict V)
    (t : string) :
  ~ In t ts -> dget t (fill v ts dd) = dget t dd.
Proof.
  revert dd. induction ts as [|a r IH]; intros dd H; auto.
  rewrite fill_cons, IH by (simpl in H; tauto).
  apply dget_dset_other. intros ->. simpl in H. tauto.
Qed.

Lemma fill_get {V} (v : V) (ts : list string) (dd : dict V) (t : string) :
  In t ts -> dget t (fill v ts dd) = Some v.
Proof.
  revert dd. induction ts as [|a r IH]; intros dd H; [destruct H|].
  rewrite fill_cons.
  destruct (in_dec string_dec t r) as [Hin|Hout]; [now apply IH|].
  destruct H as [->|H]; [|tauto].
  rewrite fill_get_other by assumption. apply dget_dset_same.
Qed.

Lemma fill_values {V} (v : V) (ts : list string) (dd : dict V) (x : V) :
  In x (map snd (fill v ts dd)) -> x = v \/ In x (map snd dd).
Proof.
  revert dd. induction ts as [|a r IH]; intros dd H; auto.
  rewrite fill_cons in H.
  destruct (IH _ H) as [H1|H1]; auto.
  destruct (dset_values _ _ _ _ H1); auto.
Qed.

Lemma dget_in_keys {V} (k : string) (dd : dict V) (v : V) :
  dget k dd = Some v -> In k (map fst dd).
Proof.
  induction dd as [|[k' v'] r IH]; simpl; [discriminate|].
  destruct (String.eqb_spec k k'); auto.
Qed.

Lemma as_lists_get (dd : dict (list Q)) (t : string) :
  dget t (as_lists dd) = option_map VList (dget t dd).
Proof.
  induction dd as [|[k v] r IH]; simpl; auto.
  destruct (String.eqb t k); auto.
Qed.

(** The four lists of every period after the first loop: the slack
    offers, whatever the ledger holds. *)
Lemma horizon_walk_blocks (self : Agent) (ts : list string)
    (bs : blocks) (st : capacity) :
  fst (fold_left (horizon_period self) ts (bs, st))
  = {| dc_mc := fill [0] ts (dc_mc bs);
       dc_mq := fill [self_dcmax self] ts (dc_mq bs);
       ch_mc := fill [0] ts (ch_mc bs);
       ch_mq := fill [self_chmax self] ts (ch_mq bs) |}.
Proof.
  revert bs st. induction ts as [|t r IH]; intros bs st.
  - destruct bs; reflexivity.
  - rewrite !fill_cons.
    change (fold_left (horizon_period self) (t :: r) (bs, st))
      with (fold_left (horizon_period self) r
              (horizon_period self (bs, st) t)).
    destruct (horizon_period self (bs, st) t) as [bs' st'] eqn:E.
    rewrite IH. unfold horizon_period in E.
    destruct (dget t _) in E; inversion E; subst; reflexivity.
Qed.

(** Nothing is left to offer beside the slack offers: the second loop
    changes no list. *)
Lemma residual_period_slack (self : Agent) (st : capacity) (bs : blocks)
    (t : string) :
  dget t (dc_mq bs) = Some [self_dcmax self] ->
  dget t (ch_mq bs) = Some [self_chmax self] ->
  residual_period self st bs t = Ok bs.
Proof.
  intros Hd Hc. unfold residual_period, lookup. rewrite Hd. simpl.
  assert (E : forall x, gtb (x - sum [x]) (1 # 100) = false).
  { intros x. apply ltb_ge. unfold sum. simpl. lra. }
  rewrite E. simpl. rewrite Hc. simpl. now rewrite E.
Qed.

Lemma residual_loop_slack (self : Agent) (st : capacity) (bs : blocks)
    (ts : list string) :
  (forall t, In t ts ->
     dget t (dc_mq bs) = Some [self_dcmax self]
     /\ dget t (ch_mq bs) = Some [self_chmax self]) ->
  residual_loop self st bs ts = Ok bs.
Proof.
  induction ts as [|t r IH]; simpl; intros H; auto.
  rewrite residual_period_slack by (apply H; auto). simpl.
  apply IH. auto.
Qed.

Lemma max_str_some (ts : list string) :
  ts <> [] -> exists t_end, max_str ts = Ok t_end.
Proof. destruct ts; [congruence|]. intros _. eexists. reflexivity. Qed.

(** The offer that [_real_time_offer] returns, for any horizon with at
    least one period. *)
Lemma real_time_offer_value (self : Agent) (t_end : string) :
  max_str (timestamps (self_market self)) = Ok t_end ->
  let ts := timestamps (self_market self) in
  let pm := post_market self t_end in
  let st := widen_all pm (snd (horizon_walk self)) in
  let soc_offer :=
    collate (self_binner self) (fst (soc_valuation self pm st))
      (snd (soc_valuation self pm st)) in
  _real_time_offer self
  = Ok [(self_rid self,
         {| block_ch_mc := as_lists (fill [0] ts []);
            block_ch_mq := as_lists (fill [self_chmax self] ts []);
            block_dc_mc := as_lists (fill [0] ts []);
            block_dc_mq := as_lists (fill [self_dcmax self] ts []);
            block_soc_mc := [(t_end, VList (snd soc_offer))];
            block_soc_mq := [(t_end, VList (fst soc_offer))];
            cost_rgu := _default_reserve_offer self;
            cost_rgd := _default_reserve_offer self;
            cost_spr := _default_reserve_offer self;
            cost_nsp := _default_reserve_offer self;
            offer_chmax := fst (_default_dispatch_capacity self);
            offer_dcmax := snd (_default_dispatch_capacity self);
            offer_constants := _default_offer_constants self (Some true) |})].
Proof.
  intros Hmax. cbv zeta. unfold _real_time_offer. rewrite Hmax. simpl.
  unfold horizon_walk.
  destruct (fold_left _ _ _) as [bs st] eqn:E.
  assert (Hbs := horizon_walk_blocks self (timestamps (self_market self))
                   {| dc_mc := []; dc_mq := []; ch_mc := []; ch_mq := [] |}
                   (initial_capacity self)).
  rewrite E in Hbs. simpl in Hbs. subst bs.
  rewrite residual_loop_slack
    by (intros t Ht; simpl; split; apply fill_get, Ht).
  simpl. destruct (soc_valuation _ _ _) as [soc_mq soc_mc]. reflexivity.
Qed.

Lemma adjust_block_const (f : value -> result value) (w : value)
    (old_block new_block : dict value) :
  (forall v, In v (map snd old_block) -> f v = Ok w) ->
  adjust_block f old_block new_block
  = Ok (fill w (map fst old_block) new_block).
Proof.
  revert new_block.
  induction old_block as [|[t v] r IH]; simpl; intros new_block H; auto.
  rewrite (H v) by auto. simpl. rewrite IH by auto. reflexivity.
Qed.

Lemma as_lists_values (dd : dict (list Q)) (v : value) :
  In v (map snd (as_lists dd)) ->
  exists l, v = VList l /\ In l (map snd dd).
Proof.
  unfold as_lists. rewrite map_map. simpl. intros H.
  apply in_map_iff in H. destruct H as [[k l] [<- H]].
  exists l. split; auto. now apply (in_map snd) in H.
Qed.

Lemma dget_single {V} (k : string) (v : V) : dget k [(k, v)] = Some v.
Proof. simpl. now rewrite String.eqb_refl. Qed.

Lemma increase_single (self : Agent) (body : offer_body)
    (adjustment : Q) (new_block : dict value) :
  adjust_block (increased adjustment) (block_dc_mc body) [] = Ok new_block ->
  _increase_discharging_offers self [(self_rid self, body)] adjustment
  = Ok [(self_rid self, with_block_dc_mc new_block body)].
Proof.
  intros H. unfold _increase_discharging_offers, lookup.
  rewrite dget_single. simpl bind at 1. rewrite H. simpl.
  now rewrite String.eqb_refl.
Qed.

Lemma getitem_first {A} (l : list A) :
  l <> [] -> exists x, getitem l 0 = Ok x.
Proof. destruct l as [|x r]; [congruence|]. intros _. now exists x. Qed.

(** C4, as the code has it.  In a real-time call the offer that
    [_real_time_offer] returns holds, for every period of the horizon,
    exactly the slack offer on both sides: [chmax] at price 0 and
    [dcmax] at price 0.  This is so whatever the ledger holds, an empty
    ledger included.  The offer that the call then saves has the
    discharge price raised by the adjustment 1; the quantities and the
    charge price are the same. *)
Theorem real_time_slack_offers (self : Agent)
    (compute_offers : resource_info -> list string -> offer) :
  timestamps (self_market self) <> [] ->
  str_in "DAM" (market_type (self_market self)) = false ->
  str_in "RTM" (market_type (self_market self)) = true ->
  exists built saved body body',
    _real_time_offer self = Ok built
    /\ dget (self_rid self) built = Some body
    /\ make_me_an_offer self compute_offers = Ok saved
    /\ dget (self_rid self) saved = Some body'
    /\ forall t, In t (timestamps (self_market self)) ->
         dget t (block_ch_mq body) = Some (VList [self_chmax self])
         /\ dget t (block_ch_mc body) = Some (VList [0])
         /\ dget t (block_dc_mq body) = Some (VList [self_dcmax self])
         /\ dget t (block_dc_mc body) = Some (VList [0])
         /\ dget t (block_ch_mq body') = Some (VList [self_chmax self])
         /\ dget t (block_ch_mc body') = Some (VList [0])
         /\ dget t (block_dc_mq body') = Some (VList [self_dcmax self])
         /\ dget t (block_dc_mc body') = Some (VList [0 + 1]).
Proof.
  intros Hts Hdam Hrtm.
  destruct (max_str_some _ Hts) as [t_end Hmax].
  pose proof (real_time_offer_value self t_end Hmax) as Hrt.
  cbv zeta in Hrt.
  destruct (getitem_first _ Hts) as [t0 Ht0].
  unfold make_me_an_offer. rewrite Hdam, Hrtm, Ht0, Hrt. simpl bind.
  rewrite (increase_single self _ 1
             (fill (VList [0 + 1])
                (map fst (as_lists (fill [0] (timestamps (self_market self))
                                      [])))
                [])).
  - do 4 eexists. split; [reflexivity|]. split; [apply dget_single|].
    split; [reflexivity|]. split; [apply dget_single|].
    intros t Ht. simpl.
    rewrite !as_lists_get, !fill_get by assumption. simpl.
    repeat split; try reflexivity.
    apply fill_get.
    assert (H : dget t (as_lists (fill [0] (timestamps (self_market self))
                                    []))
                = Some (VList [0]))
      by (rewrite as_lists_get, fill_get by assumption; reflexivity).
    exact (dget_in_keys _ _ _ H).
  - apply adjust_block_const.
    intros v Hv. apply as_lists_values in Hv.
    destruct Hv as [l [-> Hl]].
    apply fill_values in Hl. destruct Hl as [->|[]]. reflexivity.
Qed.

Lemma real_time_slack_offers_witness :
  exists built saved body body',
    _real_time_offer (rt_agent []) = Ok built
    /\ dget "R00229" built = Some body
    /\ make_me_an_offer (rt_agent []) (fun _ _ => []) = Ok saved
    /\ dget "R00229" saved = Some body'
    /\ forall t, In t ["202401010000"; "202401010005"] ->
         dget t (block_ch_mq body) = Some (VList [125])
         /\ dget t (block_ch_mc body) = Some (VList [0])
         /\ dget t (block_dc_mq body) = Some (VList [125])
         /\ dget t (block_dc_mc body) = Some (VList [0])
         /\ dget t (block_ch_mq body') = Some (VList [125])
         /\ dget t (block_ch_mc body') = Some (VList [0])
         /\ dget t (block_dc_mq body') = Some (VList [125])
         /\ dget t (block_dc_mc body') = Some (VList [0 + 1]).
Proof.
  apply (real_time_slack_offers (rt_agent []) (fun _ _ => [])).
  - discriminate.
  - reflexivity.
  - reflexivity.
Defined.

(** The saved offer of a call with an empty ledger: the discharge curve
    of the first period is [dcmax] at price 1, not at price 0. *)
Lemma saved_discharge_price_is_one :
  exists saved body,
    ledger_EN (self_resource (rt_agent [])) = []
    /\ make_me_an_offer (rt_agent []) (fun _ _ => []) = Ok saved
    /\ dget "R00229" saved = Some body
    /\ dget "202401010000" (block_dc_mq body) = Some (VList [125])
    /\ dget "202401010000" (block_dc_mc body) = Some (VList [1])
    /\ ~ 1 == 0.
Proof.
  do 2 eexists. repeat split; try (vm_compute; reflexivity).
  discriminate.
Qed.

(** [sorted] gives the orders back, highest price first. *)
Lemma insert_desc_perm (x : order) (l : list order) :
  Permutation (insert_desc x l) (x :: l).
Proof.
  induction l as [|y r IH]; simpl; auto.
  destruct (ltb (snd x) (snd y)); auto.
  rewrite IH. apply perm_swap.
Qed.

Lemma sorted_desc_perm (l : list order) : Permutation (sorted_desc l) l.
Proof.
  induction l as [|x r IH]; simpl; auto.
  rewrite insert_desc_perm. now constructor.
Qed.

Lemma insert_desc_sorted (x : order) (l : list order) :
  Sorted desc l -> Sorted desc (insert_desc x l).
Proof.
  induction 1 as [|y r Hs IH Hhd]; simpl.
  - repeat constructor.
  - destruct (ltb (snd x) (snd y)) eqn:E.
    + constructor; auto.
      destruct r as [|z r']; simpl.
      * constructor. apply ltb_lt in E. unfold desc. lra.
      * destruct (ltb (snd x) (snd z)).
        -- constructor. now inversion Hhd.
        -- constructor. apply ltb_lt in E. unfold desc. lra.
    + constructor; [constructor; auto|].
      constructor. apply ltb_ge in E. exact E.
Qed.

Lemma sorted_desc_sorted (l : list order) : Sorted desc (sorted_desc l).
Proof.
  induction l as [|x r IH]; simpl; [constructor|].
  now apply insert_desc_sorted.
Qed.

(** C6.  The orders beyond the horizon are walked highest price first.
    With [remaining] what the walk leaves of the available energy and
    [soc_mq], [soc_mc] the entries it has collected, the lists handed to
    the binner are those entries, then [remaining] at the price ceiling
    if it exceeds 1e-2, then the headroom at price 0 in every case; the
    binned result is the SoC curve of the last period. *)
Theorem soc_valuation_tail (self : Agent) :
  timestamps (self_market self) <> [] ->
  exists t_end body,
    max_str (timestamps (self_market self)) = Ok t_end
    /\ _real_time_offer self = Ok [(self_rid self, body)]
    /\ let pm := post_market self t_end in
       let st := widen_all pm (snd (horizon_walk self)) in
       let orders := List.concat (map snd pm) in
       Sorted desc (sorted_desc orders)
       /\ Permutation (sorted_desc orders) orders
       /\ exists remaining soc_mq soc_mc,
            soc_walk (sorted_desc orders) (soc_available st) [] []
            = (remaining, soc_mq, soc_mc)
            /\ let raw_mq :=
                 if gtb remaining (1 # 100)
                 then soc_mq ++ [remaining; soc_headroom st]
                 else soc_mq ++ [soc_headroom st] in
               let raw_mc :=
                 if gtb remaining (1 # 100)
                 then soc_mc ++ [self_price_ceiling self; 0]
                 else soc_mc ++ [0] in
               block_soc_mq body
               = [(t_end,
                   VList (fst (collate (self_binner self) raw_mq raw_mc)))]
               /\ block_soc_mc body
                  = [(t_end,
                      VList (snd (collate (self_binner self)
                                    raw_mq raw_mc)))].
Proof.
  intros Hts. destruct (max_str_some _ Hts) as [t_end Hmax].
  exists t_end. eexists. split; [exact Hmax|].
  split; [apply (real_time_offer_value self t_end Hmax)|].
  cbv zeta. split; [apply sorted_desc_sorted|].
  split; [apply sorted_desc_perm|].
  unfold soc_valuation.
  destruct (soc_walk _ _ _ _) as [[remaining soc_mq] soc_mc].
  exists remaining, soc_mq, soc_mc. split; [reflexivity|].
  simpl. destruct (gtb remaining (1 # 100)); simpl;
    rewrite <- ?app_assoc; split; reflexivity.
Qed.

Lemma soc_valuation_tail_witness :
  exists t_end body,
    max_str (timestamps (self_market rt_post_agent)) = Ok t_end
    /\ _real_time_offer rt_post_agent
       = Ok [(self_rid rt_post_agent, body)]
    /\ block_soc_mq body
       = [(t_end, VList [1200; 600;
                         558 - 128 - 1200 * 5 / 60 - 600 * 5 / 60; 50])]
    /\ block_soc_mc body = [(t_end, VList [40; 30; 999; 0])].
Proof.
  destruct (soc_valuation_tail rt_post_agent) as (t_end & body & H).
  - discriminate.
  - exists t_end, body.
    destruct H as (Hmax & Hrt & _ & _ & remaining & soc_mq & soc_mc & Hw & H).
    split; [exact Hmax|]. split; [exact Hrt|].
    vm_compute in Hmax. inversion Hmax; subst t_end.
    vm_compute in Hw. inversion Hw; subst.
    vm_compute in H. vm_compute. exact H.
Defined.

(* ================================================================== *)
(** * Further properties of the ledger walk *)

Lemma min2_le_l (a b : Q) : min2 a b <= a.
Proof.
  unfold min2. destruct (ltb b a) eqn:E; [|lra].
  apply ltb_lt in E. lra.
Qed.

Lemma min2_le_r (a b : Q) : min2 a b <= b.
Proof.
  unfold min2. destruct (ltb b a) eqn:E; [lra|].
  apply ltb_ge in E. lra.
Qed.

Lemma max2_ge_l (a b : Q) : a <= max2 a b.
Proof.
  unfold max2. destruct (ltb a b) eqn:E; [|lra].
  apply ltb_lt in E. lra.
Qed.

Lemma max2_ge_r (a b : Q) : b <= max2 a b.
Proof.
  unfold max2. destruct (ltb a b) eqn:E; [lra|].
  apply ltb_ge in E. lra.
Qed.

Lemma ltb_false_of_le (x y : Q) : y <= x -> ltb x y = false.
Proof. apply ltb_ge. Qed.

Lemma leb_false_of_lt (x y : Q) : y < x -> leb x y = false.
Proof.
  intros H. apply Bool.not_true_iff_false. rewrite leb_le. lra.
Qed.

Lemma soc_checks_quiet (t : string) (st : capacity) :
  0 <= soc_available st -> 0 <= soc_headroom st -> soc_checks t st = st.
Proof.
  intros Ha Hh. unfold soc_checks.
  rewrite (ltb_false_of_le _ _ Ha). cbv zeta.
  now rewrite (ltb_false_of_le _ _ Hh).
Qed.

Lemma discharge_within_bounds (self : Agent) (t : string) (st : capacity)
    (mq mc : Q) :
  0 < mq * 5 / 60 -> mq * 5 / 60 <= soc_available st ->
  0 <= soc_headroom st ->
  ledger_order self t st (mq, mc)
  = {| soc_available := soc_available st - mq * 5 / 60;
       soc_headroom := soc_headroom st + mq * 5 / 60;
       best_dc_price := max2 (best_dc_price st) mc;
       best_ch_price := best_ch_price st;
       warnings := warnings st |}.
Proof.
  intros Hpos Hle Hh. unfold ledger_order, ledger_branch.
  rewrite (ltb_false_of_le (mq * 5 / 60) 0) by lra.
  rewrite Bool.andb_false_r.
  rewrite (proj2 (ltb_lt _ _) Hpos), (proj2 (leb_le _ _) Hle). simpl.
  apply soc_checks_quiet; simpl; lra.
Qed.

(** X1.  A discharge within the available energy moves exactly its energy
    from the available side to the headroom, raises the best discharge
    price to its price if that is higher, and warns of nothing. *)
Theorem in_bounds_discharge (self : Agent) (t : string) (st : capacity)
    (mq mc : Q) :
  0 < mq * 5 / 60 -> mq * 5 / 60 <= soc_available st ->
  0 <= soc_headroom st ->
  ledger_order self t st (mq, mc)
  = {| soc_available := soc_available st - mq * 5 / 60;
       soc_headroom := soc_headroom st + mq * 5 / 60;
       best_dc_price := max2 (best_dc_price st) mc;
       best_ch_price := best_ch_price st;
       warnings := warnings st |}.
Proof. exact (discharge_within_bounds self t st mq mc). Qed.

Lemma in_bounds_discharge_witness :
  ledger_order rt_charge_agent "202401010000" (capacity_at 100 50) (600, 30)
  = {| soc_available := 100 - 600 * 5 / 60;
       soc_headroom := 50 + 600 * 5 / 60;
       best_dc_price := max2 0 30;
       best_ch_price := 999;
       warnings := [] |}.
Proof.
  apply (in_bounds_discharge rt_charge_agent "202401010000"
           (capacity_at 100 50) 600 30);
    vm_compute; congruence.
Defined.

Lemma clamp_branches (self : Agent) (t : string) (st : capacity)
    (mq mc : Q) :
  0 <= soc_available st -> 0 <= soc_headroom st ->
  self_socmin self <= self_socmax self ->
  (mq * 5 / 60 < - soc_headroom st ->
   ledger_order self t st (mq, mc)
   = {| soc_available := self_socmax self - self_socmin self;
        soc_headroom := 0;
        best_dc_price := best_dc_price st;
        best_ch_price := min2 (best_ch_price st) mc;
        warnings := warnings st ++ [ChargeExceedsHeadroom t] |})
  /\ (soc_available st < mq * 5 / 60 ->
      ledger_order self t st (mq, mc)
      = {| soc_available := 0;
           soc_headroom := self_socmax self - self_socmin self;
           best_dc_price := max2 (best_dc_price st) mc;
           best_ch_price := best_ch_price st;
           warnings := warnings st ++ [DischargeExceedsAvailable t] |}).
Proof.
  intros Ha Hh Hcap. split; intros H; unfold ledger_order, ledger_branch.
  - rewrite (leb_false_of_lt (- soc_headroom st) (mq * 5 / 60)) by lra.
    rewrite (ltb_false_of_le 0 (mq * 5 / 60)) by lra.
    rewrite (proj2 (ltb_lt _ _) H). simpl.
    apply soc_checks_quiet; simpl; lra.
  - rewrite (ltb_false_of_le (mq * 5 / 60) 0) by lra.
    rewrite Bool.andb_false_r.
    rewrite (leb_false_of_lt (mq * 5 / 60) (soc_available st)) by lra.
    rewrite Bool.andb_false_r.
    rewrite (ltb_false_of_le (mq * 5 / 60) (- soc_headroom st)) by lra.
    unfold gtb. rewrite (proj2 (ltb_lt _ _) H).
    apply soc_checks_quiet; simpl; lra.
Qed.

(** X2.  An order beyond the bounds is clamped: a charge larger than the
    headroom leaves the full range available and no headroom, a
    discharge larger than the available energy leaves nothing available
    and the full range as headroom; each adds one warning and still
    updates its best price. *)
Theorem overflow_clamps (self : Agent) (t : string) (st : capacity)
    (mq mc : Q) :
  0 <= soc_available st -> 0 <= soc_headroom st ->
  self_socmin self <= self_socmax self ->
  (mq * 5 / 60 < - soc_headroom st ->
   ledger_order self t st (mq, mc)
   = {| soc_available := self_socmax self - self_socmin self;
        soc_headroom := 0;
        best_dc_price := best_dc_price st;
        best_ch_price := min2 (best_ch_price st) mc;
        warnings := warnings st ++ [ChargeExceedsHeadroom t] |})
  /\ (soc_available st < mq * 5 / 60 ->
      ledger_order self t st (mq, mc)
      = {| soc_available := 0;
           soc_headroom := self_socmax self - self_socmin self;
           best_dc_price := max2 (best_dc_price st) mc;
           best_ch_price := best_ch_price st;
           warnings := warnings st ++ [DischargeExceedsAvailable t] |}).
Proof. exact (clamp_branches self t st mq mc). Qed.

Lemma overflow_clamps_witness :
  ledger_order rt_charge_agent "202401010000" (capacity_at 100 50)
    (12000, 40)
  = {| soc_available := 0;
       soc_headroom := socmax - socmin;
       best_dc_price := max2 0 40;
       best_ch_price := 999;
       warnings := [DischargeExceedsAvailable "202401010000"] |}.
Proof.
  apply (proj2 (overflow_clamps rt_charge_agent "202401010000"
                  (capacity_at 100 50) 12000 40
                  ltac:(vm_compute; congruence)
                  ltac:(vm_compute; congruence)
                  ltac:(vm_compute; congruence))).
  vm_compute. reflexivity.
Defined.

Lemma energy_twelfth (mq : Q) : mq * 5 / 60 == mq * (1 # 12).
Proof. field. Qed.

Lemma soc_checks_warnings (t : string) (st : capacity) :
  exists extra,
    warnings (soc_checks t st) = warnings st ++ extra
    /\ ~ In FaultyCases extra
    /\ (0 <= soc_headroom st -> forall t', ~ In (SocAboveMax t') extra).
Proof.
  unfold soc_checks.
  destruct (ltb (soc_available st) 0); cbv zeta;
    match goal with
    | |- context [if ?b then _ else _] => destruct b eqn:E
    end; simpl in *.
  - exists [SocBelowMin t; SocAboveMax t].
    rewrite <- app_assoc. split; [reflexivity|].
    split; [simpl; intuition discriminate|].
    intros H. apply ltb_lt in E. lra.
  - exists [SocBelowMin t]. split; [reflexivity|].
    split; simpl; intuition discriminate.
  - exists [SocAboveMax t]. split; [reflexivity|].
    split; [simpl; intuition discriminate|].
    intros H. apply ltb_lt in E. lra.
  - exists []. rewrite app_nil_r. split; [reflexivity|].
    split; simpl; intuition.
Qed.

Lemma not_own_extension {A} (l : list A) (x : A) : l <> l ++ [x].
Proof.
  intros H. apply (f_equal (@List.length A)) in H.
  rewrite length_app in H. simpl in H. lia.
Qed.

(** X3.  An order of quantity 0 falls through all four branches: the
    capacity and the best prices stay as they are and the warning of the
    last arm is written.  No other order writes that warning. *)
Theorem zero_quantity_order (self : Agent) (t : string) (st : capacity)
    (mq mc : Q) :
  0 <= soc_available st -> 0 <= soc_headroom st ->
  self_socmin self <= self_socmax self ->
  (mq == 0 -> ledger_order self t st (mq, mc) = warn FaultyCases st)
  /\ (warnings (ledger_order self t st (mq, mc))
      = warnings st ++ [FaultyCases] -> mq == 0).
Proof.
  intros Ha Hh Hcap. pose proof (energy_twelfth mq) as E. split.
  - intros H0. unfold ledger_order, ledger_branch.
    rewrite (ltb_false_of_le (mq * 5 / 60) 0) by lra.
    rewrite Bool.andb_false_r.
    rewrite (ltb_false_of_le 0 (mq * 5 / 60)) by lra. simpl.
    rewrite (ltb_false_of_le (mq * 5 / 60) (- soc_headroom st)) by lra.
    unfold gtb.
    rewrite (ltb_false_of_le (soc_available st) (mq * 5 / 60)) by lra.
    apply soc_checks_quiet; simpl; assumption.
  - intros Hw.
    destruct (Q_dec mq 0) as [[Hneg|Hpos]|Hz]; [| |exact Hz]; exfalso.
    + destruct (Qlt_le_dec (mq * 5 / 60) (- soc_headroom st)) as [Hov|Hin].
      * rewrite (proj1 (clamp_branches self t st mq mc Ha Hh Hcap) Hov)
          in Hw.
        simpl in Hw. apply app_inv_head in Hw. discriminate.
      * unfold ledger_order in Hw.
        rewrite in_bounds_charge_branch in Hw by lra.
        destruct (soc_checks_warnings t
                    {| soc_available :=
                         soc_available st
                         + mq * self_efficiency self * 5 / 60;
                       soc_headroom :=
                         soc_headroom st
                         - mq * self_efficiency self * 5 / 60;
                       best_dc_price := best_dc_price st;
                       best_ch_price := min2 (best_ch_price st) mc;
                       warnings := warnings st |})
          as (extra & Hx & Hnf & _).
        rewrite Hx in Hw. simpl in Hw. apply app_inv_head in Hw.
        subst extra. apply Hnf. simpl. auto.
    + destruct (Qlt_le_dec (soc_available st) (mq * 5 / 60)) as [Hov|Hin].
      * rewrite (proj2 (clamp_branches self t st mq mc Ha Hh Hcap) Hov)
          in Hw.
        simpl in Hw. apply app_inv_head in Hw. discriminate.
      * rewrite discharge_within_bounds in Hw by lra.
        simpl in Hw. exact (not_own_extension _ _ Hw).
Qed.

Lemma zero_quantity_order_witness :
  ledger_order rt_charge_agent "202401010000" (capacity_at 100 50) (0, 30)
  = warn FaultyCases (capacity_at 100 50).
Proof.
  apply (proj1 (zero_quantity_order rt_charge_agent "202401010000"
                  (capacity_at 100 50) 0 30
                  ltac:(vm_compute; congruence)
                  ltac:(vm_compute; congruence)
                  ltac:(vm_compute; congruence))).
  reflexivity.
Defined.

Lemma ledger_branch_prices (self : Agent) (t : string) (st : capacity)
    (o : order) :
  best_ch_price (ledger_branch self t st o) <= best_ch_price st
  /\ best_dc_price st <= best_dc_price (ledger_branch self t st o).
Proof.
  destruct o as [mq mc]. unfold ledger_branch.
  repeat match goal with
         | |- context [if ?b then _ else _] => destruct b
         end; simpl;
    split; try lra; auto using min2_le_l, max2_ge_l.
Qed.

Lemma ledger_order_prices (self : Agent) (t : string) (st : capacity)
    (o : order) :
  best_ch_price (ledger_order self t st o) <= best_ch_price st
  /\ best_dc_price st <= best_dc_price (ledger_order self t st o).
Proof.
  unfold ledger_order.
  destruct (soc_checks_quantities t (ledger_branch self t st o))
    as (_ & _ & -> & ->).
  apply ledger_branch_prices.
Qed.

(** A property that every order keeps holds after any number of
    horizon periods. *)
Lemma horizon_walk_invariant (self : Agent) (P : capacity -> Prop) :
  (forall t st o, P st -> P (ledger_order self t st o)) ->
  forall ts acc,
    P (snd acc) -> P (snd (fold_left (horizon_period self) ts acc)).
Proof.
  intros Hstep ts. induction ts as [|t r IH]; simpl; intros acc H; auto.
  apply IH. destruct acc as [bs st]. unfold horizon_period. simpl in *.
  destruct (dget t _) as [en_ledger|]; simpl; auto.
  clear IH. revert st H.
  induction en_ledger as [|o r' IH']; simpl; intros st H; auto.
Qed.

Lemma ledger_orders_invariant (self : Agent) (P : capacity -> Prop)
    (t : string) :
  (forall st o, P st -> P (ledger_order self t st o)) ->
  forall en_ledger st,
    P st -> P (fold_left (ledger_order self t) en_ledger st).
Proof.
  intros Hstep en_ledger.
  induction en_ledger as [|o r IH]; simpl; intros st H; auto.
Qed.

(** The headroom never becomes negative. *)
Lemma ledger_order_headroom (self : Agent) (t : string) (st : capacity)
    (o : order) :
  0 <= self_efficiency self -> self_socmin self <= self_socmax self ->
  0 <= soc_headroom st -> 0 <= soc_headroom (ledger_order self t st o).
Proof.
  intros He Hcap Hh. unfold ledger_order.
  destruct (soc_checks_quantities t (ledger_branch self t st o))
    as (_ & -> & _ & _).
  destruct o as [mq mc]. unfold ledger_branch.
  destruct (leb _ _ && ltb (mq * 5 / 60) 0) eqn:E1; simpl.
  - apply Bool.andb_true_iff in E1. destruct E1 as [_ E1].
    apply ltb_lt in E1. rewrite energy_twelfth in E1.
    assert (E : mq * self_efficiency self * 5 / 60
                == mq * self_efficiency self * (1 # 12)) by field.
    rewrite E. nra.
  - destruct (ltb 0 _ && leb _ _) eqn:E2; simpl.
    + apply Bool.andb_true_iff in E2. destruct E2 as [E2 _].
      apply ltb_lt in E2. lra.
    + destruct (ltb _ (- _)); simpl; [lra|].
      destruct (gtb _ _); simpl; lra.
Qed.

Lemma ledger_branch_warnings (self : Agent) (t : string) (st : capacity)
    (o : order) :
  exists extra,
    warnings (ledger_branch self t st o) = warnings st ++ extra
    /\ forall t', ~ In (SocAboveMax t') extra.
Proof.
  destruct o as [mq mc]. unfold ledger_branch.
  repeat match goal with
         | |- context [if ?b then _ else _] => destruct b
         end; simpl;
    try (exists []; rewrite app_nil_r; split; [reflexivity|];
         simpl; intuition; fail);
    eexists; (split; [reflexivity|]); simpl; intuition discriminate.
Qed.

(** X4.  With the SoC at most [socmax], the walk never drives the headroom
    below zero, never counts more energy available than the usable
    range, and never writes the warning of a SoC above the maximum. *)
Theorem headroom_never_negative (self : Agent) :
  0 <= self_efficiency self ->
  self_socmin self <= self_socmax self ->
  status_soc (self_resource self) <= self_socmax self ->
  let st := snd (horizon_walk self) in
  0 <= soc_headroom st
  /\ soc_available st <= self_socmax self - self_socmin self
  /\ forall t, ~ In (SocAboveMax t) (warnings st).
Proof.
  intros He Hcap Hsoc st.
  assert (H : (0 <= soc_headroom st
               /\ forall t, ~ In (SocAboveMax t) (warnings st))
              /\ balanced self st).
  { subst st. unfold horizon_walk.
    apply (horizon_walk_invariant self
             (fun st => (0 <= soc_headroom st
                         /\ forall t, ~ In (SocAboveMax t) (warnings st))
                        /\ balanced self st)).
    - intros t st o [[Hh Hw] Hb].
      split; [|now apply ledger_order_balanced].
      split; [now apply ledger_order_headroom|].
      intros t' Hin. unfold ledger_order in Hin.
      destruct (ledger_branch_warnings self t st o) as (x1 & E1 & N1).
      destruct (soc_checks_warnings t (ledger_branch self t st o))
        as (x2 & E2 & _ & N2).
      rewrite E2, E1 in Hin. rewrite !in_app_iff in Hin.
      destruct Hin as [[Hin|Hin]|Hin].
      + exact (Hw t' Hin).
      + exact (N1 t' Hin).
      + refine (N2 _ t' Hin).
        pose proof (ledger_order_headroom self t st o He Hcap Hh) as Hh'.
        unfold ledger_order in Hh'.
        now destruct (soc_checks_quantities t (ledger_branch self t st o))
          as (_ & <- & _ & _).
    - simpl. split; [split; [lra|intros t []]|].
      apply initial_capacity_balanced. }
  destruct H as [[Hh Hw] Hb]. unfold balanced in Hb.
  repeat split; auto; lra.
Qed.

Lemma headroom_never_negative_witness :
  let st := snd (horizon_walk rt_charge_agent) in
  0 <= soc_headroom st
  /\ soc_available st <= socmax - socmin
  /\ forall t, ~ In (SocAboveMax t) (warnings st).
Proof.
  apply (headroom_never_negative rt_charge_agent);
    vm_compute; congruence.
Defined.

Lemma widen_prices (st : capacity) (o : order) :
  best_ch_price (widen st o) <= best_ch_price st
  /\ best_dc_price st <= best_dc_price (widen st o)
  /\ best_ch_price (widen st o) <= snd o
  /\ snd o <= best_dc_price (widen st o).
Proof.
  simpl. auto using min2_le_l, min2_le_r, max2_ge_l, max2_ge_r.
Qed.

Lemma widen_orders_bound (orders : list order) (st : capacity)
    (lo hi : Q) :
  best_ch_price st <= lo -> hi <= best_dc_price st ->
  best_ch_price (fold_left widen orders st) <= lo
  /\ hi <= best_dc_price (fold_left widen orders st).
Proof.
  revert st. induction orders as [|o r IH]; simpl; intros st H1 H2; auto.
  destruct (widen_prices st o) as (Hc & Hd & _ & _).
  apply IH; lra.
Qed.

Lemma widen_orders_cover (orders : list order) (st : capacity)
    (o : order) :
  In o orders ->
  best_ch_price (fold_left widen orders st) <= snd o
  /\ snd o <= best_dc_price (fold_left widen orders st).
Proof.
  revert st. induction orders as [|x r IH]; simpl; intros st H; [tauto|].
  destruct H as [->|H]; [|now apply IH].
  destruct (widen_prices st o) as (_ & _ & Hc & Hd).
  apply widen_orders_bound; assumption.
Qed.

Lemma widen_all_bound (pm : dict (list order)) (st : capacity)
    (lo hi : Q) :
  best_ch_price st <= lo -> hi <= best_dc_price st ->
  best_ch_price (widen_all pm st) <= lo
  /\ hi <= best_dc_price (widen_all pm st).
Proof.
  unfold widen_all. revert st.
  induction pm as [|kv r IH]; simpl; intros st H1 H2; auto.
  destruct (widen_orders_bound (snd kv) st lo hi H1 H2).
  apply IH; assumption.
Qed.

Lemma widen_all_cover (pm : dict (list order)) (st : capacity)
    (o : order) :
  In o (List.concat (map snd pm)) ->
  best_ch_price (widen_all pm st) <= snd o
  /\ snd o <= best_dc_price (widen_all pm st).
Proof.
  revert st. induction pm as [|kv r IH]; simpl; intros st Ho; [tauto|].
  apply in_app_iff in Ho. destruct Ho as [Ho|Ho]; [|exact (IH _ Ho)].
  destruct (widen_orders_cover (snd kv) st o Ho) as [Hc Hd].
  exact (widen_all_bound r _ _ _ Hc Hd).
Qed.

Lemma widen_all_capacity (pm : dict (list order)) (st : capacity) :
  soc_available (widen_all pm st) = soc_available st
  /\ soc_headroom (widen_all pm st) = soc_headroom st
  /\ warnings (widen_all pm st) = warnings st.
Proof.
  unfold widen_all. revert st.
  induction pm as [|kv r IH]; simpl; intros st; auto.
  destruct (IH (fold_left widen (snd kv) st)) as (-> & -> & ->).
  generalize (snd kv). intros l. revert st.
  induction l as [|o l' IHl]; simpl; intros st; auto.
  destruct (IHl (widen st o)) as (-> & -> & ->). auto.
Qed.

(** X6.  The best prices after the ledger beyond the horizon has been read:
    the best charge price is at most the price ceiling and at most the
    price of every order beyond the horizon, the best discharge price
    is at least the price floor and at least each of those prices;
    reading those orders moves no capacity. *)
Theorem post_horizon_prices (self : Agent) (t_end : string) :
  let pm := post_market self t_end in
  let st := widen_all pm (snd (horizon_walk self)) in
  best_ch_price st <= self_price_ceiling self
  /\ self_price_floor self <= best_dc_price st
  /\ (forall o, In o (List.concat (map snd pm)) ->
        best_ch_price st <= snd o /\ snd o <= best_dc_price st)
  /\ soc_available st = soc_available (snd (horizon_walk self))
  /\ soc_headroom st = soc_headroom (snd (horizon_walk self)).
Proof.
  cbv zeta.
  assert (H0 : best_ch_price (snd (horizon_walk self))
               <= self_price_ceiling self
               /\ self_price_floor self
                  <= best_dc_price (snd (horizon_walk self))).
  { unfold horizon_walk.
    apply (horizon_walk_invariant self
             (fun st => best_ch_price st <= self_price_ceiling self
                        /\ self_price_floor self <= best_dc_price st)).
    - intros t st o [H1 H2].
      destruct (ledger_order_prices self t st o). split; lra.
    - simpl. split; lra. }
  destruct H0 as [H1 H2].
  destruct (widen_all_bound (post_market self t_end) _ _ _ H1 H2)
    as [H3 H4].
  split; [exact H3|]. split; [exact H4|].
  split; [|destruct (widen_all_capacity (post_market self t_end)
                       (snd (horizon_walk self))) as (-> & -> & _); auto].
  intros o Ho. now apply widen_all_cover.
Qed.

Lemma post_horizon_prices_witness :
  best_ch_price (widen_all (post_market rt_post_agent "202401010005")
                   (snd (horizon_walk rt_post_agent))) <= snd (600, 30)
  /\ snd (600, 30)
     <= best_dc_price (widen_all (post_market rt_post_agent "202401010005")
                         (snd (horizon_walk rt_post_agent))).
Proof.
  apply (proj1 (proj2 (proj2 (post_horizon_prices rt_post_agent
                                "202401010005")))).
  simpl. auto.
Defined.

Lemma charge_order_counts (self : Agent) (t : string) (st : capacity)
    (mq mc : Q) :
  mq < 0 -> best_ch_price (ledger_order self t st (mq, mc)) <= mc.
Proof.
  intros Hneg. pose proof (energy_twelfth mq) as E. unfold ledger_order.
  destruct (soc_checks_quantities t (ledger_branch self t st (mq, mc)))
    as (_ & _ & -> & _).
  unfold ledger_branch.
  destruct (leb (- soc_headroom st) (mq * 5 / 60)) eqn:E1.
  - rewrite (proj2 (ltb_lt (mq * 5 / 60) 0)) by lra. simpl.
    apply min2_le_r.
  - simpl. rewrite (ltb_false_of_le 0 (mq * 5 / 60)) by lra. simpl.
    assert (H : mq * 5 / 60 < - soc_headroom st).
    { apply Qnot_le_lt. intros H. apply leb_le in H. congruence. }
    rewrite (proj2 (ltb_lt _ _) H). simpl. apply min2_le_r.
Qed.

Lemma discharge_order_counts (self : Agent) (t : string) (st : capacity)
    (mq mc : Q) :
  0 <= soc_headroom st -> 0 < mq ->
  mc <= best_dc_price (ledger_order self t st (mq, mc)).
Proof.
  intros Hh Hpos. pose proof (energy_twelfth mq) as E. unfold ledger_order.
  destruct (soc_checks_quantities t (ledger_branch self t st (mq, mc)))
    as (_ & _ & _ & ->).
  unfold ledger_branch.
  rewrite (ltb_false_of_le (mq * 5 / 60) 0) by lra.
  rewrite Bool.andb_false_r.
  rewrite (proj2 (ltb_lt 0 (mq * 5 / 60))) by lra. simpl.
  destruct (leb (mq * 5 / 60) (soc_available st)) eqn:E2; simpl.
  - apply max2_ge_r.
  - rewrite (ltb_false_of_le (mq * 5 / 60) (- soc_headroom st)) by lra.
    assert (H : soc_available st < mq * 5 / 60).
    { apply Qnot_le_lt. intros H. apply leb_le in H. congruence. }
    unfold gtb. rewrite (proj2 (ltb_lt _ _) H). simpl. apply max2_ge_r.
Qed.

Lemma ledger_orders_establish (self : Agent) (I G : capacity -> Prop)
    (t0 : string) (o0 : order) :
  (forall st o, I st -> I (ledger_order self t0 st o)) ->
  (forall st o, G st -> G (ledger_order self t0 st o)) ->
  (forall st, I st -> G (ledger_order self t0 st o0)) ->
  forall orders st,
    In o0 orders -> I st ->
    G (fold_left (ledger_order self t0) orders st).
Proof.
  intros HI HG Hest orders.
  induction orders as [|x l IHl]; intros st Hin Hst; [destruct Hin|].
  simpl. destruct Hin as [->|Hin].
  - apply (ledger_orders_invariant self G t0 HG). now apply Hest.
  - apply IHl; auto.
Qed.

(** What one order of one horizon period establishes, under an
    invariant of the walk, holds at the end of the walk if every order
    keeps it. *)
Lemma horizon_walk_establishes (self : Agent) (I G : capacity -> Prop)
    (t0 : string) (orders : list order) (o0 : order) :
  (forall t st o, I st -> I (ledger_order self t st o)) ->
  (forall t st o, G st -> G (ledger_order self t st o)) ->
  (forall st, I st -> G (ledger_order self t0 st o0)) ->
  dget t0 (ledger_EN (self_resource self)) = Some orders ->
  In o0 orders ->
  forall ts acc,
    In t0 ts -> I (snd acc) ->
    G (snd (fold_left (horizon_period self) ts acc)).
Proof.
  intros HI HG Hest Hget Hin ts.
  induction ts as [|a r IH]; intros acc Ht Hacc; [destruct Ht|].
  simpl fold_left. destruct Ht as [->|Ht].
  - apply (horizon_walk_invariant self G HG).
    destruct acc as [bs st]. unfold horizon_period. rewrite Hget.
    simpl in *.
    apply (ledger_orders_establish self I G t0 o0 (HI t0) (HG t0) Hest);
      assumption.
  - apply IH; auto.
    apply (horizon_walk_invariant self I HI [a] acc Hacc).
Qed.

(** X5.  The best prices after the walk take in every order of the horizon:
    the best charge price is at most the price of each charge order,
    and, with the SoC at most [socmax], the best discharge price is at
    least the price of each discharge order. *)
Theorem horizon_order_prices (self : Agent) (t : string)
    (orders : list order) (mq mc : Q) :
  In t (timestamps (self_market self)) ->
  dget t (ledger_EN (self_resource self)) = Some orders ->
  In (mq, mc) orders ->
  let st := snd (horizon_walk self) in
  (mq < 0 -> best_ch_price st <= mc)
  /\ (0 < mq -> 0 <= self_efficiency self ->
      self_socmin self <= self_socmax self ->
      status_soc (self_resource self) <= self_socmax self ->
      mc <= best_dc_price st).
Proof.
  intros Ht Hget Hin st. subst st. unfold horizon_walk. split.
  - intros Hneg.
    apply (horizon_walk_establishes self (fun _ => True)
             (fun st => best_ch_price st <= mc) t orders (mq, mc));
      auto.
    + intros t' st o H.
      destruct (ledger_order_prices self t' st o). lra.
    + intros st _. now apply charge_order_counts.
  - intros Hpos He Hcap Hsoc.
    apply (horizon_walk_establishes self (fun st => 0 <= soc_headroom st)
             (fun st => mc <= best_dc_price st) t orders (mq, mc));
      auto.
    + intros t' st o H. now apply ledger_order_headroom.
    + intros t' st o H.
      destruct (ledger_order_prices self t' st o). lra.
    + intros st H. now apply discharge_order_counts.
    + simpl. lra.
Qed.

Lemma horizon_order_prices_witness :
  best_ch_price (snd (horizon_walk rt_charge_agent)) <= 5.
Proof.
  apply (horizon_order_prices rt_charge_agent "202401010000"
           [(-120, 5)] (-120) 5).
  - simpl. auto.
  - reflexivity.
  - simpl. auto.
  - reflexivity.
Defined.

(* ================================================================== *)
(** * Further properties of the end-of-horizon valuation *)

Lemma fold_Qplus_from (l : list Q) (a : Q) :
  fold_left Qplus l a == a + fold_left Qplus l 0.
Proof.
  revert a. induction l as [|x r IH]; simpl; intros a; [ring|].
  rewrite (IH (a + x)), (IH (0 + x)). ring.
Qed.

Lemma sum_cons (x : Q) (l : list Q) : sum (x :: l) == x + sum l.
Proof. unfold sum. simpl. rewrite fold_Qplus_from. ring. Qed.

Lemma leb_true_and (a b c d : Q) :
  ltb a b && leb c d = true -> a < b /\ c <= d.
Proof.
  intros H. apply Bool.andb_true_iff in H. destruct H as [H1 H2].
  apply ltb_lt in H1. apply leb_le in H2. auto.
Qed.

(** The walk from any collected lists: what it adds, and what it
    leaves. *)
Lemma soc_walk_from (l : list order) :
  forall (rem : Q) (aq ac : list Q),
    0 <= rem ->
    exists rem' q c,
      soc_walk l rem aq ac = (rem', aq ++ q, ac ++ c)
      /\ 0 <= rem' /\ rem' <= rem
      /\ List.length q = List.length c
      /\ (forall x, In x q -> 0 <= x)
      /\ (forall p, In p c -> exists mq, In (mq, p) l /\ 0 < mq)
      /\ sum q * 5 / 60 + rem' <= rem
      /\ (0 < rem' -> sum q * 5 / 60 + rem' == rem)
      /\ (StronglySorted desc l ->
          StronglySorted (fun a b => b <= a) c).
Proof.
  induction l as [|[mq mc] rest IH]; intros rem aq ac Hrem.
  - exists rem, [], []. simpl. rewrite !app_nil_r.
    assert (Es : sum [] * 5 / 60 == 0) by reflexivity.
    split; [reflexivity|]. split; [lra|]. split; [lra|].
    split; [reflexivity|]. split; [intros ? []|].
    split; [intros ? []|]. split; [rewrite Es; lra|].
    split; [intros _; rewrite Es; ring|]. constructor.
  - simpl. pose proof (energy_twelfth mq) as E.
    destruct (ltb 0 (mq * 5 / 60) && leb (mq * 5 / 60) rem) eqn:B1.
    { apply leb_true_and in B1. destruct B1 as [Hpos Hle].
      destruct (IH (rem - mq * 5 / 60) (aq ++ [mq]) (ac ++ [mc])
                  ltac:(lra))
        as (rem' & q & c & Hw & H0 & H1 & Hlen & Hq & Hc & Hs & He & Hd).
      exists rem', (mq :: q), (mc :: c).
      rewrite Hw, <- !app_assoc. simpl.
      assert (Es : sum (mq :: q) * 5 / 60 == mq * 5 / 60 + sum q * 5 / 60)
        by (rewrite sum_cons; field).
      split; [reflexivity|]. split; [lra|]. split; [lra|].
      split; [now rewrite Hlen|].
      split; [intros x [<-|Hx]; [lra|auto]|].
      split.
      { intros p [<-|Hp].
        - exists mq. split; [auto|lra].
        - destruct (Hc p Hp) as (m & Hm & Hm'). exists m. auto. }
      split; [rewrite Es; lra|].
      split; [intros Hr; rewrite Es; specialize (He Hr); lra|].
      intros Hss. inversion Hss as [|? ? Hss' Hall]; subst.
      constructor; [auto|].
      apply Forall_forall. intros p Hp.
      destruct (Hc p Hp) as (m & Hm & _).
      rewrite Forall_forall in Hall. exact (Hall _ Hm). }
    destruct (ltb 0 rem && ltb rem (mq * 5 / 60)) eqn:B2.
    { apply Bool.andb_true_iff in B2. destruct B2 as [Hpos Hlt].
      apply ltb_lt in Hpos. apply ltb_lt in Hlt.
      destruct (IH 0 (aq ++ [0]) (ac ++ [mc]) ltac:(lra))
        as (rem' & q & c & Hw & H0 & H1 & Hlen & Hq & Hc & Hs & He & Hd).
      exists rem', (0 :: q), (mc :: c).
      rewrite Hw, <- !app_assoc. simpl.
      assert (Es : sum (0 :: q) * 5 / 60 == sum q * 5 / 60)
        by (rewrite sum_cons; field).
      split; [reflexivity|]. split; [lra|]. split; [lra|].
      split; [now rewrite Hlen|].
      split; [intros x [<-|Hx]; [lra|auto]|].
      split.
      { intros p [<-|Hp].
        - exists mq. split; [auto|lra].
        - destruct (Hc p Hp) as (m & Hm & Hm'). exists m. auto. }
      split; [rewrite Es; lra|].
      split; [intros Hr; lra|].
      intros Hss. inversion Hss as [|? ? Hss' Hall]; subst.
      constructor; [auto|].
      apply Forall_forall. intros p Hp.
      destruct (Hc p Hp) as (m & Hm & _).
      rewrite Forall_forall in Hall. exact (Hall _ Hm). }
    destruct (ltb rem (1 # 100)) eqn:B3.
    { exists rem, [], []. rewrite !app_nil_r.
      assert (Es : sum [] * 5 / 60 == 0) by reflexivity.
      split; [reflexivity|]. split; [lra|]. split; [lra|].
      split; [reflexivity|]. split; [intros ? []|].
      split; [intros ? []|]. split; [rewrite Es; lra|].
      split; [intros _; rewrite Es; ring|]. constructor. }
    destruct (IH rem aq ac Hrem)
      as (rem' & q & c & Hw & H0 & H1 & Hlen & Hq & Hc & Hs & He & Hd).
    exists rem', q, c. rewrite Hw.
    split; [reflexivity|]. split; [lra|]. split; [lra|].
    split; [exact Hlen|]. split; [exact Hq|].
    split.
    { intros p Hp. destruct (Hc p Hp) as (m & Hm & Hm'). exists m. auto. }
    split; [exact Hs|]. split; [exact He|].
    intros Hss. inversion Hss; auto.
Qed.

Lemma soc_walk_stops_below_zero (l : list order) (rem : Q)
    (aq ac : list Q) :
  rem < 0 -> soc_walk l rem aq ac = (rem, aq, ac).
Proof.
  intros H. destruct l as [|[mq mc] rest]; [reflexivity|]. simpl.
  destruct (ltb 0 (mq * 5 / 60)) eqn:E; simpl.
  - apply ltb_lt in E.
    rewrite (leb_false_of_lt (mq * 5 / 60) rem) by lra.
    rewrite (ltb_false_of_le 0 rem) by lra. simpl.
    now rewrite (proj2 (ltb_lt rem (1 # 100))) by lra.
  - rewrite (ltb_false_of_le 0 rem) by lra. simpl.
    now rewrite (proj2 (ltb_lt rem (1 # 100))) by lra.
Qed.

(** The walk from any collected lists and a capacity that is not
    negative: the bounds of what it leaves and of what it adds. *)
Lemma soc_walk_bounds_from (l : list order) :
  forall (rem : Q) (aq ac : list Q),
    0 <= rem ->
    exists rem' q c,
      soc_walk l rem aq ac = (rem', aq ++ q, ac ++ c)
      /\ 0 <= rem' /\ rem' <= rem
      /\ (forall x, In x q -> 0 <= x /\ x * 5 / 60 <= rem).
Proof.
  induction l as [|[mq mc] rest IH]; intros rem aq ac Hrem.
  - exists rem, [], []. simpl. rewrite !app_nil_r.
    split; [reflexivity|]. split; [lra|]. split; [lra|]. intros ? [].
  - simpl.
    destruct (ltb 0 (mq * 5 / 60) && leb (mq * 5 / 60) rem) eqn:B1.
    { apply leb_true_and in B1. destruct B1 as [Hpos Hle].
      pose proof (energy_twelfth mq) as E.
      destruct (IH (rem - mq * 5 / 60) (aq ++ [mq]) (ac ++ [mc])
                  ltac:(lra)) as (rem' & q & c & Hw & H0 & H1 & Hq).
      exists rem', (mq :: q), (mc :: c).
      rewrite Hw, <- !app_assoc. simpl.
      split; [reflexivity|]. split; [lra|]. split; [lra|].
      intros x [<-|Hx]; [split; lra|].
      destruct (Hq x Hx). split; lra. }
    destruct (ltb 0 rem && ltb rem (mq * 5 / 60)) eqn:B2.
    { destruct (IH 0 (aq ++ [0]) (ac ++ [mc]) ltac:(lra))
        as (rem' & q & c & Hw & H0 & H1 & Hq).
      exists rem', (0 :: q), (mc :: c).
      rewrite Hw, <- !app_assoc. simpl.
      split; [reflexivity|]. split; [lra|]. split; [lra|].
      intros x [<-|Hx].
      - assert (E0 : 0 * 5 / 60 == 0) by reflexivity. split; lra.
      - destruct (Hq x Hx). split; lra. }
    destruct (ltb rem (1 # 100)) eqn:B3.
    { exists rem, [], []. rewrite !app_nil_r.
      split; [reflexivity|]. split; [lra|]. split; [lra|]. intros ? []. }
    destruct (IH rem aq ac Hrem) as (rem' & q & c & Hw & H0 & H1 & Hq).
    exists rem', q, c. rewrite Hw. auto.
Qed.

(** X8.  From an available energy that is not negative, the walk never
    raises the remaining capacity and never takes it below zero; every
    quantity it collects is non-negative, and the energy of each is at
    most the energy the walk started with. *)
Theorem soc_walk_bounds (orders : list order) (start : Q) :
  0 <= start ->
  exists remaining soc_mq soc_mc,
    soc_walk orders start [] [] = (remaining, soc_mq, soc_mc)
    /\ 0 <= remaining /\ remaining <= start
    /\ (forall x, In x soc_mq -> 0 <= x /\ x * 5 / 60 <= start).
Proof.
  intros H.
  destruct (soc_walk_bounds_from orders start [] [] H)
    as (rem' & q & c & Hw & H0 & H1 & Hq).
  exists rem', q, c. simpl in Hw. auto.
Qed.

Lemma soc_walk_bounds_witness :
  exists remaining soc_mq soc_mc,
    soc_walk [(1200, 40); (600, 30); (-100, 20)] 430 [] []
    = (remaining, soc_mq, soc_mc)
    /\ 0 <= remaining /\ remaining <= 430
    /\ (forall x, In x soc_mq -> 0 <= x /\ x * 5 / 60 <= 430).
Proof.
  apply (soc_walk_bounds [(1200, 40); (600, 30); (-100, 20)] 430).
  vm_compute. congruence.
Defined.

Lemma desc_trans : Relations_1.Transitive desc.
Proof. intros x y z. unfold desc. lra. Qed.

(** What the walk collects, from any capacity: as many prices as
    quantities, each the price of a discharge order, in the order of
    the list. *)
Lemma soc_walk_shape (l : list order) (rem : Q) (aq ac : list Q) :
  exists rem' q c,
    soc_walk l rem aq ac = (rem', aq ++ q, ac ++ c)
    /\ List.length q = List.length c
    /\ (forall p, In p c -> exists mq, In (mq, p) l /\ 0 < mq)
    /\ (StronglySorted desc l -> StronglySorted (fun a b => b <= a) c).
Proof.
  destruct (Qlt_le_dec rem 0) as [Hneg|Hpos].
  - exists rem, [], []. rewrite !app_nil_r.
    split; [now apply soc_walk_stops_below_zero|].
    split; [reflexivity|]. split; [intros ? []|]. constructor.
  - destruct (soc_walk_from l rem aq ac Hpos)
      as (rem' & q & c & Hw & _ & _ & Hlen & _ & Hc & _ & _ & Hd).
    exists rem', q, c. auto.
Qed.

(** X9.  The walk over the sorted orders collects as many prices as
    quantities; the prices are in descending order and each is the price
    of a discharge order beyond the horizon.  This holds from any
    available energy, a negative one included. *)
Theorem walked_prices_descend (orders : list order) (start : Q) :
  exists remaining soc_mq soc_mc,
    soc_walk (sorted_desc orders) start [] [] = (remaining, soc_mq, soc_mc)
    /\ List.length soc_mq = List.length soc_mc
    /\ StronglySorted (fun a b => b <= a) soc_mc
    /\ (forall p, In p soc_mc -> exists mq, In (mq, p) orders /\ 0 < mq).
Proof.
  destruct (soc_walk_shape (sorted_desc orders) start [] [])
    as (rem' & q & c & Hw & Hlen & Hc & Hd).
  exists rem', q, c. simpl in Hw. repeat split; auto.
  - apply Hd. apply Sorted_StronglySorted; [exact desc_trans|].
    apply sorted_desc_sorted.
  - intros p Hp. destruct (Hc p Hp) as (mq & Hin & Hpos).
    exists mq. split; [|exact Hpos].
    apply (Permutation_in _ (sorted_desc_perm orders) Hin).
Qed.

Lemma walked_prices_descend_witness :
  exists remaining soc_mq soc_mc,
    soc_walk (sorted_desc [(600, 30); (-100, 20); (1200, 40)]) 430 [] []
    = (remaining, soc_mq, soc_mc)
    /\ List.length soc_mq = List.length soc_mc
    /\ StronglySorted (fun a b => b <= a) soc_mc
    /\ (forall p, In p soc_mc ->
          exists mq, In (mq, p) [(600, 30); (-100, 20); (1200, 40)]
                     /\ 0 < mq).
Proof.
  exact (walked_prices_descend [(600, 30); (-100, 20); (1200, 40)] 430).
Defined.

(** X10.  A discharge order larger than the energy that is left ends the
    walk: it is entered with the quantity 0 at its own price, nothing
    is left, and the orders after it are not read. *)
Theorem exhausting_order_gets_zero (mq mc : Q) (rest : list order)
    (remaining : Q) (soc_mq soc_mc : list Q) :
  0 < remaining -> remaining < mq * 5 / 60 ->
  soc_walk ((mq, mc) :: rest) remaining soc_mq soc_mc
  = (0, soc_mq ++ [0], soc_mc ++ [mc]).
Proof.
  intros Hpos Hlt. simpl.
  rewrite (leb_false_of_lt (mq * 5 / 60) remaining) by lra.
  rewrite Bool.andb_false_r.
  rewrite (proj2 (ltb_lt _ _) Hpos), (proj2 (ltb_lt _ _) Hlt). simpl.
  destruct rest as [|[mq' mc'] rest']; [reflexivity|]. simpl.
  destruct (ltb 0 (mq' * 5 / 60)) eqn:E; simpl.
  - apply ltb_lt in E.
    rewrite (leb_false_of_lt (mq' * 5 / 60) 0) by lra. reflexivity.
  - reflexivity.
Qed.

Lemma exhausting_order_gets_zero_witness :
  soc_walk [(1200, 40); (600, 30)] 80 [] [] = (0, [] ++ [0], [] ++ [40]).
Proof.
  apply (exhausting_order_gets_zero 1200 40 [(600, 30)] 80 [] []);
    vm_compute; congruence.
Defined.

(** X11.  The lists handed to the binner are always parallel and never
    empty; with a capacity within its bounds they hold no negative
    quantity. *)
Theorem valuation_lists_parallel (self : Agent)
    (pm : dict (list order)) (st : capacity) :
  List.length (fst (soc_valuation self pm st))
  = List.length (snd (soc_valuation self pm st))
  /\ (1 <= List.length (fst (soc_valuation self pm st)))%nat
  /\ (0 <= soc_available st -> 0 <= soc_headroom st ->
      forall x, In x (fst (soc_valuation self pm st)) -> 0 <= x).
Proof.
  unfold soc_valuation.
  destruct (soc_walk_shape (sorted_desc (List.concat (map snd pm)))
              (soc_available st) [] [])
    as (rem' & q & c & Hw & Hlen & _).
  rewrite Hw. simpl.
  split; [|split].
  - destruct (gtb rem' (1 # 100)); simpl;
      rewrite ?length_app; simpl; lia.
  - destruct (gtb rem' (1 # 100)); simpl;
      rewrite ?length_app; simpl; lia.
  - intros Ha Hh.
    destruct (soc_walk_bounds_from (sorted_desc (List.concat (map snd pm)))
                (soc_available st) [] [] Ha)
      as (rem2 & q2 & c2 & Hw2 & H0 & _ & Hq).
    rewrite Hw in Hw2. simpl in Hw2. inversion Hw2; subst rem2 q2 c2.
    destruct (gtb rem' (1 # 100)); simpl;
      intros x Hx; rewrite ?in_app_iff in Hx; simpl in Hx;
      intuition (subst; auto); apply (Hq x); assumption.
Qed.

Lemma valuation_lists_parallel_witness :
  List.length (fst (soc_valuation rt_post_agent
                      (post_market rt_post_agent "202401010005")
                      (capacity_at 430 50)))
  = List.length (snd (soc_valuation rt_post_agent
                        (post_market rt_post_agent "202401010005")
                        (capacity_at 430 50)))
  /\ 0 <= 1200.
Proof.
  split.
  - apply (proj1 (valuation_lists_parallel rt_post_agent
                    (post_market rt_post_agent "202401010005")
                    (capacity_at 430 50))).
  - apply (proj2 (proj2 (valuation_lists_parallel rt_post_agent
                           (post_market rt_post_agent "202401010005")
                           (capacity_at 430 50)))).
    + vm_compute. congruence.
    + vm_compute. congruence.
    + vm_compute. left. reflexivity.
Defined.

(* ================================================================== *)
(** * The horizon and the ledger beyond it *)

Lemma ascii_compare_refl (a : Ascii.ascii) : Ascii.compare a a = Eq.
Proof. unfold Ascii.compare. apply N.compare_refl. Qed.

Lemma ascii_lt_trans (a b c : Ascii.ascii) :
  Ascii.compare a b = Lt -> Ascii.compare b c = Lt ->
  Ascii.compare a c = Lt.
Proof.
  unfold Ascii.compare. rewrite !N.compare_lt_iff. apply N.lt_trans.
Qed.

Lemma str_lt_trans (s1 : string) :
  forall s2 s3,
    String.compare s1 s2 = Lt -> String.compare s2 s3 = Lt ->
    String.compare s1 s3 = Lt.
Proof.
  induction s1 as [|a1 r1 IH]; intros [|a2 r2] [|a3 r3]; simpl;
    try discriminate; auto.
  destruct (Ascii.compare a1 a2) eqn:E1; try discriminate;
    destruct (Ascii.compare a2 a3) eqn:E2; try discriminate; intros H1 H2.
  - apply Ascii.compare_eq_iff in E1. apply Ascii.compare_eq_iff in E2.
    subst. rewrite ascii_compare_refl. eauto.
  - apply Ascii.compare_eq_iff in E1. subst. now rewrite E2.
  - apply Ascii.compare_eq_iff in E2. subst. now rewrite E1.
  - now rewrite (ascii_lt_trans _ _ _ E1 E2).
Qed.

Lemma str_ltb_lt (s1 s2 : string) :
  String.ltb s1 s2 = true <-> String.compare s1 s2 = Lt.
Proof.
  unfold String.ltb. destruct (String.compare s1 s2); split; congruence.
Qed.

Lemma str_compare_refl (s : string) : String.compare s s = Eq.
Proof.
  induction s as [|a r IH]; simpl; auto.
  now rewrite ascii_compare_refl.
Qed.

Lemma str_le_refl (s : string) : str_le s s.
Proof.
  unfold str_le. apply Bool.not_true_iff_false. rewrite str_ltb_lt.
  rewrite str_compare_refl. discriminate.
Qed.

Lemma str_le_trans (s1 s2 s3 : string) :
  str_le s1 s2 -> str_le s2 s3 -> str_le s1 s3.
Proof.
  unfold str_le. rewrite <- !Bool.not_true_iff_false, !str_ltb_lt.
  intros H12 H23 H31. apply H23.
  destruct (String.compare s2 s1) eqn:E; [| |].
  - apply String.compare_eq_iff in E. now subst.
  - congruence.
  - rewrite String.compare_antisym in E.
    destruct (String.compare s1 s2) eqn:E'; try discriminate.
    exact (str_lt_trans _ _ _ H31 E').
Qed.

Lemma max_str_fold (l : list string) (m : string) :
  let m' := fold_left (fun m0 y => if String.ltb m0 y then y else m0) l m in
  In m' (m :: l) /\ str_le m m' /\ forall x, In x l -> str_le x m'.
Proof.
  revert m. induction l as [|y r IH]; intros m; simpl.
  - split; [auto|]. split; [apply str_le_refl|tauto].
  - destruct (IH (if String.ltb m y then y else m)) as (Hin & Hle & Hall).
    cbv zeta in *. simpl in Hin.
    assert (Hm : str_le m (if String.ltb m y then y else m)
                 /\ str_le y (if String.ltb m y then y else m)).
    { destruct (String.ltb m y) eqn:E.
      - split; [|apply str_le_refl].
        unfold str_le. apply Bool.not_true_iff_false.
        rewrite str_ltb_lt. rewrite str_ltb_lt in E.
        rewrite String.compare_antisym, E. discriminate.
      - split; [apply str_le_refl|exact E]. }
    destruct Hm as [Hm Hy].
    split.
    + destruct Hin as [Hin|Hin]; [|auto].
      destruct (String.ltb m y); subst; auto.
    + split; [exact (str_le_trans _ _ _ Hm Hle)|].
      intros x [<-|Hx]; [exact (str_le_trans _ _ _ Hy Hle)|auto].
Qed.

Lemma dget_in {V} (k : string) (dd : dict V) (v : V) :
  dget k dd = Some v -> In (k, v) dd.
Proof.
  induction dd as [|[k' v'] r IH]; simpl; [discriminate|].
  destruct (String.eqb_spec k k') as [->|]; [|auto].
  intros H. inversion H. auto.
Qed.

Lemma max_str_in (ts : list string) (t_end : string) :
  max_str ts = Ok t_end -> In t_end ts.
Proof.
  destruct ts as [|t0 r]; simpl; [discriminate|].
  intros H. inversion H. apply (max_str_fold r t0).
Qed.

(** X7.  The last period of the horizon is one of its periods and none is
    later; the ledger beyond the horizon holds exactly the ledger
    entries later than it, so no period of the horizon has orders
    there. *)
Theorem horizon_end_is_latest (self : Agent) (t_end : string) :
  max_str (timestamps (self_market self)) = Ok t_end ->
  In t_end (timestamps (self_market self))
  /\ (forall t, In t (timestamps (self_market self)) -> str_le t t_end)
  /\ (forall t orders,
        In (t, orders) (post_market self t_end)
        <-> In (t, orders) (ledger_EN (self_resource self))
            /\ String.ltb t_end t = true)
  /\ (forall t, In t (timestamps (self_market self)) ->
        dget t (post_market self t_end) = None).
Proof.
  intros Hmax. unfold max_str in Hmax.
  destruct (timestamps (self_market self)) as [|t0 r] eqn:Ets;
    [discriminate|].
  inversion Hmax as [Hm]. clear Hmax.
  destruct (max_str_fold r t0) as (Hin & Hle & Hall).
  cbv zeta in *. rewrite Hm in *.
  assert (Hts : forall t, In t (t0 :: r) -> str_le t t_end).
  { intros t [<-|Ht]; auto. }
  split; [exact Hin|]. split; [exact Hts|].
  assert (Hpm : forall t orders,
            In (t, orders) (post_market self t_end)
            <-> In (t, orders) (ledger_EN (self_resource self))
                /\ String.ltb t_end t = true).
  { intros t orders. unfold post_market. rewrite filter_In. reflexivity. }
  split; [exact Hpm|].
  intros t Ht. destruct (dget t (post_market self t_end)) eqn:E; auto.
  apply dget_in, Hpm in E. destruct E as [_ E].
  specialize (Hts t Ht). unfold str_le in Hts. congruence.
Qed.

Lemma horizon_end_is_latest_witness :
  In "202401010005" (timestamps (self_market rt_post_agent))
  /\ (forall t, In t (timestamps (self_market rt_post_agent)) ->
        str_le t "202401010005")
  /\ (forall t orders,
        In (t, orders) (post_market rt_post_agent "202401010005")
        <-> In (t, orders) (ledger_EN (self_resource rt_post_agent))
            /\ String.ltb "202401010005" t = true)
  /\ (forall t, In t (timestamps (self_market rt_post_agent)) ->
        dget t (post_market rt_post_agent "202401010005") = None).
Proof.
  apply (horizon_end_is_latest rt_post_agent "202401010005").
  reflexivity.
Defined.

(* ================================================================== *)
(** * Further properties of the offer processing *)

(** X13.  [make_me_an_offer] stops with a value error when the market
    type names neither market.  For a real-time market with no period
    it stops with an index error, at the log line that formats the
    first timestamp, before the offer is built; [_real_time_offer]
    itself would stop at the maximum of the empty horizon.  Nothing is
    saved in either case. *)
Theorem make_me_an_offer_errors (self : Agent)
    (compute_offers : resource_info -> list string -> offer) :
  str_in "DAM" (market_type (self_market self)) = false ->
  (str_in "RTM" (market_type (self_market self)) = false ->
   make_me_an_offer self compute_offers
   = Raise (ValueError
       ("Unable to find offer function for market_type="
        ++ market_type (self_market self))%string))
  /\ (str_in "RTM" (market_type (self_market self)) = true ->
      timestamps (self_market self) = [] ->
      make_me_an_offer self compute_offers = Raise IndexError
      /\ exists msg, _real_time_offer self = Raise (ValueError msg)).
Proof.
  intros Hdam. unfold make_me_an_offer. rewrite Hdam. split.
  - intros Hrtm. rewrite Hrtm. reflexivity.
  - intros Hrtm Hts. rewrite Hrtm. unfold _real_time_offer.
    rewrite Hts. simpl. split; [reflexivity|]. eexists. reflexivity.
Qed.

Lemma make_me_an_offer_errors_witness :
  make_me_an_offer
    (__init__ plain_binner 28
       {| market_type := "FMM"; timestamps := ["202401010000"] |}
       (rt_resource []))
    (fun _ _ => [])
  = Raise (ValueError "Unable to find offer function for market_type=FMM")
  /\ make_me_an_offer
       (__init__ plain_binner 28
          {| market_type := "RTM"; timestamps := [] |} (rt_resource []))
       (fun _ _ => [])
     = Raise IndexError.
Proof.
  split.
  - apply (proj1 (make_me_an_offer_errors
                    (__init__ plain_binner 28
                       {| market_type := "FMM";
                          timestamps := ["202401010000"] |}
                       (rt_resource []))
                    (fun _ _ => []) eq_refl)).
    reflexivity.
  - apply (proj2 (make_me_an_offer_errors
                    (__init__ plain_binner 28
                       {| market_type := "RTM"; timestamps := [] |}
                       (rt_resource []))
                    (fun _ _ => []) eq_refl));
      reflexivity.
Defined.

Lemma increased_ok (adjustment : Q) (v : value) :
  (exists w, increased adjustment v = Ok w) <-> int_or_list v.
Proof.
  unfold int_or_list. split.
  - intros [w H]. destruct v; try discriminate; eauto.
  - intros [[n ->]|[l ->]]; eexists; reflexivity.
Qed.

Lemma increased_raises (adjustment : Q) (v : value) (e : exn) :
  increased adjustment v = Raise e ->
  e = TypeError "discharge block type is unsupported. type=<class 'dict'>".
Proof. destruct v; simpl; intros H; inversion H; reflexivity. Qed.

Lemma dset_keys {V} (k : string) (v : V) (dd : dict V) :
  In k (map fst dd) -> map fst (dset k v dd) = map fst dd.
Proof.
  induction dd as [|[k' v'] r IH]; simpl; [tauto|].
  destruct (String.eqb_spec k k') as [->|Hne]; simpl; [reflexivity|].
  intros [H|H]; [congruence|]. now rewrite IH.
Qed.

(** The loop that builds the new block, from a dictionary: the result
    has the entries of the old block, in their order, each adjusted. *)
Lemma adjust_block_entries (f : value -> result value)
    (old_block : dict value) :
  forall acc new_block,
    NoDup (map fst acc ++ map fst old_block) ->
    adjust_block f old_block acc = Ok new_block ->
    exists tail,
      new_block = acc ++ tail
      /\ Forall2 (adjusted_entry f) old_block tail.
Proof.
  induction old_block as [|[t v] r IH]; simpl; intros acc new_block Hnd H.
  - inversion H. exists []. rewrite app_nil_r. auto.
  - destruct (f v) as [w|e] eqn:E; simpl in H; [|discriminate].
    assert (Hfresh : ~ In t (map fst acc)).
    { apply NoDup_remove_2 in Hnd. rewrite in_app_iff in Hnd. tauto. }
    rewrite dset_fresh in H by assumption.
    destruct (IH (acc ++ [(t, w)]) new_block) as (tail & -> & Hall); auto.
    + rewrite map_app, <- app_assoc. simpl. exact Hnd.
    + exists ((t, w) :: tail). rewrite <- app_assoc. split; [reflexivity|].
      constructor; [split; auto|exact Hall].
Qed.

Lemma adjust_block_succeeds (f : value -> result value)
    (old_block : dict value) :
  forall acc,
    (exists new_block, adjust_block f old_block acc = Ok new_block)
    <-> forall v, In v (map snd old_block) -> exists w, f v = Ok w.
Proof.
  induction old_block as [|[t v] r IH]; simpl; intros acc.
  - split; [intros _ ? []|eauto].
  - split.
    + intros [nb H]. destruct (f v) as [w|e] eqn:E; [|discriminate].
      simpl in H. intros x [<-|Hx]; [eauto|].
      apply (proj1 (IH (dset t w acc))); eauto.
    + intros H. destruct (H v (or_introl eq_refl)) as [w ->]. simpl.
      apply IH. auto.
Qed.

Lemma adjust_block_raises (f : value -> result value) (e0 : exn)
    (old_block : dict value) :
  (forall v e, f v = Raise e -> e = e0) ->
  forall acc e, adjust_block f old_block acc = Raise e -> e = e0.
Proof.
  intros Hf. induction old_block as [|[t v] r IH]; simpl; intros acc e H.
  - discriminate.
  - destruct (f v) as [w|e'] eqn:E; simpl in H; eauto.
    inversion H; subst. eauto.
Qed.

Lemma increase_result (self : Agent) (offer0 : offer)
    (adjustment : Q) :
  ((exists offer1,
      _increase_discharging_offers self offer0 adjustment = Ok offer1)
   <-> exists body,
         dget (self_rid self) offer0 = Some body
         /\ forall v, In v (map snd (block_dc_mc body)) -> int_or_list v)
  /\ (forall offer1 body,
        _increase_discharging_offers self offer0 adjustment = Ok offer1 ->
        dget (self_rid self) offer0 = Some body ->
        NoDup (map fst (block_dc_mc body)) ->
        exists new_block,
          dget (self_rid self) offer1
          = Some (with_block_dc_mc new_block body)
          /\ Forall2 (adjusted_entry (increased adjustment))
               (block_dc_mc body) new_block
          /\ forall r, r <> self_rid self -> dget r offer1 = dget r offer0).
Proof.
  unfold _increase_discharging_offers, lookup. split.
  - split.
    + intros [offer1 H].
      destruct (dget (self_rid self) offer0) as [body|]; [|discriminate].
      exists body. split; [reflexivity|].
      simpl in H.
      destruct (adjust_block _ _ _) as [nb|] eqn:E; [|discriminate].
      intros v Hv. apply (increased_ok adjustment).
      apply (proj1 (adjust_block_succeeds _ _ []) (ex_intro _ nb E) v Hv).
    + intros (body & -> & Hall). simpl.
      destruct (proj2 (adjust_block_succeeds (increased adjustment)
                         (block_dc_mc body) [])) as [nb ->].
      * intros v Hv. apply increased_ok. auto.
      * simpl. eauto.
  - intros offer1 body H Hget Hnd. rewrite Hget in H. simpl in H.
    destruct (adjust_block _ _ _) as [nb|] eqn:E; [|discriminate].
    simpl in H. inversion H; subst offer1.
    destruct (adjust_block_entries _ _ [] nb Hnd E) as (tail & -> & Hall).
    exists tail. split; [apply dget_dset_same|]. split; [exact Hall|].
    intros r Hr. now apply dget_dset_other.
Qed.

(** X14.  [_increase_discharging_offers] succeeds exactly when the offer has
    the resource and every entry of its discharge-cost block is an
    integer or a list.  It then changes that block alone: the block has
    the same periods in the same order, each value raised by the
    adjustment, and every other part of the offer is as it was. *)
Theorem increase_discharging_offers_result (self : Agent) (offer0 : offer)
    (adjustment : Q) :
  ((exists offer1,
      _increase_discharging_offers self offer0 adjustment = Ok offer1)
   <-> exists body,
         dget (self_rid self) offer0 = Some body
         /\ forall v, In v (map snd (block_dc_mc body)) -> int_or_list v)
  /\ (forall offer1 body,
        _increase_discharging_offers self offer0 adjustment = Ok offer1 ->
        dget (self_rid self) offer0 = Some body ->
        NoDup (map fst (block_dc_mc body)) ->
        exists new_block,
          dget (self_rid self) offer1
          = Some (with_block_dc_mc new_block body)
          /\ Forall2 (adjusted_entry (increased adjustment))
               (block_dc_mc body) new_block
          /\ forall r, r <> self_rid self -> dget r offer1 = dget r offer0).
Proof. exact (increase_result self offer0 adjustment). Qed.

Lemma increase_discharging_offers_result_witness :
  exists new_block,
    dget "R00229" sample_offer_raised
    = Some (with_block_dc_mc new_block sample_body)
    /\ Forall2 (adjusted_entry (increased 1))
         (block_dc_mc sample_body) new_block
    /\ forall r, r <> "R00229" ->
         dget r sample_offer_raised = dget r sample_offer.
Proof.
  apply (proj2 (increase_discharging_offers_result rt_charge_agent
                  sample_offer 1)
           sample_offer_raised sample_body).
  - reflexivity.
  - reflexivity.
  - simpl. repeat constructor; simpl; intuition discriminate.
Defined.

(** X15.  The function cannot be applied twice to an offer that held an
    integer cost: the first call turns the integer into a float, which
    the second call refuses with its type error. *)
Theorem increase_twice_refuses_scalar (self : Agent) (offer0 offer1 : offer)
    (body : offer_body) (a1 a2 : Q) (t : string) (n : Z) :
  dget (self_rid self) offer0 = Some body ->
  NoDup (map fst (block_dc_mc body)) ->
  In (t, VInt n) (block_dc_mc body) ->
  _increase_discharging_offers self offer0 a1 = Ok offer1 ->
  _increase_discharging_offers self offer1 a2
  = Raise (TypeError
      "discharge block type is unsupported. type=<class 'dict'>").
Proof.
  intros Hget Hnd Hin H1.
  destruct (proj2 (increase_result self offer0 a1)
              offer1 body H1 Hget Hnd) as (nb & Hget1 & Hall & _).
  assert (Hfloat : In (VFloat (inject_Z n + a1)) (map snd nb)).
  { clear - Hall Hin. induction Hall as [|x y l l' [Hk Hv] _ IH].
    - destruct Hin.
    - destruct Hin as [->|Hin]; [|right; auto].
      left. simpl in Hv. now inversion Hv. }
  unfold _increase_discharging_offers, lookup. rewrite Hget1. simpl.
  destruct (adjust_block (increased a2) nb []) as [nb2|e] eqn:E.
  - exfalso.
    destruct (proj1 (adjust_block_succeeds _ _ []) (ex_intro _ nb2 E)
                _ Hfloat) as [w Hw].
    discriminate Hw.
  - simpl. f_equal.
    exact (adjust_block_raises _ _ nb (increased_raises a2) [] e E).
Qed.

Lemma increase_twice_refuses_scalar_witness :
  _increase_discharging_offers rt_charge_agent sample_offer_raised 1
  = Raise (TypeError
      "discharge block type is unsupported. type=<class 'dict'>").
Proof.
  apply (increase_twice_refuses_scalar rt_charge_agent sample_offer
           sample_offer_raised sample_body 1 1 "202401010000" 3).
  - reflexivity.
  - simpl. repeat constructor; simpl; intuition discriminate.
  - simpl. auto.
  - reflexivity.
Defined.

Lemma fill_of_pairs {V} (v : V) (ts : list string) (acc : dict V) :
  fold_left (fun d0 kv => dset (fst kv) (snd kv) d0)
    (map (fun t => (t, v)) ts) acc
  = fill v ts acc.
Proof.
  revert acc. induction ts as [|t r IH]; simpl; intros acc; auto.
Qed.

Lemma constant_dict_get {V} (v : V) (ts : list string) (t : string) :
  dget t (dict_of (map (fun t' => (t', v)) ts))
  = if in_dec string_dec t ts then Some v else None.
Proof.
  unfold dict_of. rewrite fill_of_pairs.
  destruct (in_dec string_dec t ts) as [Hin|Hout].
  - now apply fill_get.
  - now rewrite fill_get_other.
Qed.

(** X16.  Called without lists, or with two empty lists, [_offer_to_dicts]
    returns the same dictionary twice: the integer 0 for every period
    of the horizon and nothing else. *)
Theorem offer_to_dicts_zeros (self : Agent)
    (mq_list mc_list : option (list value)) :
  no_list mq_list = true -> no_list mc_list = true ->
  exists zeros,
    _offer_to_dicts self mq_list mc_list = Ok (zeros, zeros)
    /\ forall t,
         dget t zeros
         = if in_dec string_dec t (timestamps (self_market self))
           then Some (VInt 0) else None.
Proof.
  intros Hq Hc. unfold _offer_to_dicts, offer_to_dicts_traced.
  rewrite Hq, Hc. simpl. eexists. split; [reflexivity|].
  intros t. apply constant_dict_get.
Qed.

Lemma offer_to_dicts_zeros_witness :
  exists zeros,
    _offer_to_dicts rt_charge_agent None (Some []) = Ok (zeros, zeros)
    /\ forall t,
         dget t zeros
         = if in_dec string_dec t (timestamps (self_market rt_charge_agent))
           then Some (VInt 0) else None.
Proof.
  apply (offer_to_dicts_zeros rt_charge_agent None (Some []));
    reflexivity.
Defined.

Lemma getitem_nth {A} (l : list A) (i : nat) :
  getitem l (Z.of_nat i)
  = match nth_error l i with
    | Some x => Ok x
    | None => Raise IndexError
    end.
Proof.
  assert (E : (Z.of_nat i <? 0)%Z = false) by (apply Z.ltb_ge; lia).
  unfold getitem. cbv zeta. now rewrite !E, Nat2Z.id.
Qed.

(** The loop of [_offer_to_dicts] over lists of numbers, from period
    [i] on. *)
Lemma offer_loop_numbers (self : Agent) (mq_list mc_list : list value) :
  Forall (fun v => is_number v = true) mq_list ->
  Forall (fun v => is_number v = true) mc_list ->
  forall ts (i : nat) mq_dict mc_dict trace,
    NoDup (map fst mq_dict ++ ts) ->
    map fst mc_dict = map fst mq_dict ->
    offer_loop self (Some mq_list) (Some mc_list) (Z.of_nat i) ts
      mq_dict mc_dict trace
    = if (List.length ts =? 0)%nat
         || (i + List.length ts <=? List.length mq_list)%nat
            && (i + List.length ts <=? List.length mc_list)%nat
      then Ok (mq_dict ++ List.combine ts (skipn i mq_list),
               mc_dict ++ List.combine ts (skipn i mc_list),
               trace ++ repeat PassedThrough (List.length ts))
      else Raise IndexError.
Proof.
  intros Hq Hc ts.
  induction ts as [|t r IH]; intros i mq_dict mc_dict trace Hnd Hkeys.
  - simpl. now rewrite !app_nil_r.
  - simpl offer_loop. unfold offer_period, subscript.
    rewrite !getitem_nth.
    destruct (nth_error mc_list i) as [mc|] eqn:Emc.
    + destruct (nth_error mq_list i) as [mq|] eqn:Emq.
      * simpl bind.
        rewrite Forall_forall in Hq, Hc.
        rewrite (Hc mc (nth_error_In _ _ Emc)),
                (Hq mq (nth_error_In _ _ Emq)).
        simpl.
        assert (Hf : ~ In t (map fst mq_dict)).
        { apply NoDup_remove_2 in Hnd. rewrite in_app_iff in Hnd. tauto. }
        rewrite !dset_fresh by (rewrite ?Hkeys; assumption).
        replace (Z.of_nat i + 1)%Z with (Z.of_nat (S i)) by lia.
        rewrite IH.
        -- simpl List.length.
           replace (S i + List.length r)%nat
             with (i + S (List.length r))%nat by lia.
           assert (Hic : (i < List.length mc_list)%nat)
             by (apply nth_error_Some; congruence).
           assert (Hiq : (i < List.length mq_list)%nat)
             by (apply nth_error_Some; congruence).
           assert (Hc0 : ((List.length r =? 0)%nat
                          || (i + S (List.length r)
                              <=? List.length mq_list)%nat
                             && (i + S (List.length r)
                                 <=? List.length mc_list)%nat)
                         = ((i + S (List.length r)
                             <=? List.length mq_list)%nat
                            && (i + S (List.length r)
                                <=? List.length mc_list)%nat)).
           { destruct (List.length r) as [|k]; simpl; [|reflexivity].
             symmetry. apply Bool.andb_true_iff.
             split; apply Nat.leb_le; lia. }
           rewrite Hc0. simpl Nat.eqb.
           destruct (_ && _); [|reflexivity].
           rewrite <- !app_assoc. simpl.
           assert (Sq : skipn i mq_list = mq :: skipn (S i) mq_list).
           { clear - Emq. revert mq_list Emq.
             induction i as [|i IHi]; intros [|x l] E; try discriminate.
             - inversion E. reflexivity.
             - simpl in *. now apply IHi. }
           assert (Sc : skipn i mc_list = mc :: skipn (S i) mc_list).
           { clear - Emc. revert mc_list Emc.
             induction i as [|i IHi]; intros [|x l] E; try discriminate.
             - inversion E. reflexivity.
             - simpl in *. now apply IHi. }
           rewrite Sq, Sc. reflexivity.
        -- rewrite map_app, <- app_assoc. simpl. exact Hnd.
        -- rewrite !map_app. simpl. now rewrite Hkeys.
      * simpl. apply nth_error_None in Emq.
        replace (i + S (List.length r) <=? List.length mq_list)%nat
          with false; [reflexivity|].
        symmetry. apply Nat.leb_gt. lia.
    + simpl. apply nth_error_None in Emc.
      replace (i + S (List.length r) <=? List.length mc_list)%nat
        with false; [now rewrite Bool.andb_false_r|].
      symmetry. apply Nat.leb_gt. lia.
Qed.

(** X17.  Lists of numbers that cover the horizon go through unchanged: each
    period is paired with the quantity and the cost at its position,
    and what the lists hold beyond the horizon is dropped. *)
Theorem offer_to_dicts_numbers (self : Agent) (mq_list mc_list : list value) :
  NoDup (timestamps (self_market self)) ->
  Forall (fun v => is_number v = true) mq_list ->
  Forall (fun v => is_number v = true) mc_list ->
  (List.length (timestamps (self_market self)) <= List.length mq_list)%nat ->
  (List.length (timestamps (self_market self)) <= List.length mc_list)%nat ->
  _offer_to_dicts self (Some mq_list) (Some mc_list)
  = Ok (List.combine (timestamps (self_market self)) mq_list,
        List.combine (timestamps (self_market self)) mc_list).
Proof.
  intros Hnd Hq Hc Hlq Hlc. unfold _offer_to_dicts, offer_to_dicts_traced.
  destruct (no_list (Some mq_list) && no_list (Some mc_list)) eqn:E.
  - apply Bool.andb_true_iff in E. destruct E as [E1 E2].
    destruct mq_list; [|discriminate]. destruct mc_list; [|discriminate].
    destruct (timestamps (self_market self)); [reflexivity|].
    simpl in Hlq. lia.
  - pose proof (offer_loop_numbers self mq_list mc_list Hq Hc
                  (timestamps (self_market self)) 0 [] [] [] Hnd eq_refl)
      as HL.
    change (Z.of_nat 0) with 0%Z in HL. rewrite HL.
    replace ((0 + List.length (timestamps (self_market self))
              <=? List.length mq_list)%nat) with true
      by (symmetry; apply Nat.leb_le; lia).
    replace ((0 + List.length (timestamps (self_market self))
              <=? List.length mc_list)%nat) with true
      by (symmetry; apply Nat.leb_le; lia).
    rewrite Bool.orb_true_r. reflexivity.
Qed.

Lemma offer_to_dicts_numbers_witness :
  _offer_to_dicts rt_charge_agent
    (Some [VFloat 125; VInt 0; VInt 7]) (Some [VInt 10; VFloat 44.6])
  = Ok (List.combine (timestamps (self_market rt_charge_agent))
          [VFloat 125; VInt 0; VInt 7],
        List.combine (timestamps (self_market rt_charge_agent))
          [VInt 10; VFloat 44.6]).
Proof.
  apply (offer_to_dicts_numbers rt_charge_agent
           [VFloat 125; VInt 0; VInt 7] [VInt 10; VFloat 44.6]).
  - simpl. repeat constructor; simpl; intuition discriminate.
  - repeat constructor.
  - repeat constructor.
  - simpl. lia.
  - simpl. lia.
Defined.

(** X18.  A list of numbers shorter than the horizon stops [_offer_to_dicts]
    with an index error (unless both lists are empty, which gives the
    zero offer). *)
Theorem offer_to_dicts_short_list (self : Agent)
    (mq_list mc_list : list value) :
  NoDup (timestamps (self_market self)) ->
  Forall (fun v => is_number v = true) mq_list ->
  Forall (fun v => is_number v = true) mc_list ->
  mq_list <> [] \/ mc_list <> [] ->
  (List.length mq_list < List.length (timestamps (self_market self)))%nat
  \/ (List.length mc_list
      < List.length (timestamps (self_market self)))%nat ->
  _offer_to_dicts self (Some mq_list) (Some mc_list) = Raise IndexError.
Proof.
  intros Hnd Hq Hc Hne Hshort.
  unfold _offer_to_dicts, offer_to_dicts_traced.
  replace (no_list (Some mq_list) && no_list (Some mc_list)) with false.
  - pose proof (offer_loop_numbers self mq_list mc_list Hq Hc
                  (timestamps (self_market self)) 0 [] [] [] Hnd eq_refl)
      as HL.
    change (Z.of_nat 0) with 0%Z in HL. rewrite HL.
    replace ((List.length (timestamps (self_market self)) =? 0)%nat)
      with false by (symmetry; apply Nat.eqb_neq; lia).
    replace ((0 + List.length (timestamps (self_market self))
              <=? List.length mq_list)%nat
             && (0 + List.length (timestamps (self_market self))
                 <=? List.length mc_list)%nat) with false; [reflexivity|].
    symmetry. apply Bool.andb_false_iff.
    destruct Hshort; [left|right]; apply Nat.leb_gt; lia.
  - symmetry. apply Bool.andb_false_iff.
    destruct Hne as [H|H]; [left|right];
      [destruct mq_list|destruct mc_list]; simpl; congruence.
Qed.

Lemma offer_to_dicts_short_list_witness :
  _offer_to_dicts rt_charge_agent (Some [VFloat 125; VInt 0])
    (Some [VInt 10])
  = Raise IndexError.
Proof.
  apply (offer_to_dicts_short_list rt_charge_agent
           [VFloat 125; VInt 0] [VInt 10]).
  - simpl. repeat constructor; simpl; intuition discriminate.
  - repeat constructor.
  - repeat constructor.
  - left. discriminate.
  - right. simpl. lia.
Defined.

(** X12.  What the real-time offer holds beside the curves: for every period
    of the horizon the power limits [chmax] and [dcmax] and zero
    reserve costs, one SoC curve, at the last period, and the constants
    of the resource with the SoC bid switched on. *)
Theorem real_time_offer_packaging (self : Agent) :
  timestamps (self_market self) <> [] ->
  exists t_end body soc_mc soc_mq,
    _real_time_offer self = Ok [(self_rid self, body)]
    /\ In t_end (timestamps (self_market self))
    /\ block_soc_mc body = [(t_end, soc_mc)]
    /\ block_soc_mq body = [(t_end, soc_mq)]
    /\ (forall t,
          In t (timestamps (self_market self)) ->
          dget t (offer_chmax body) = Some (self_chmax self)
          /\ dget t (offer_dcmax body) = Some (self_dcmax self)
          /\ dget t (cost_rgu body) = Some 0
          /\ dget t (cost_rgd body) = Some 0
          /\ dget t (cost_spr body) = Some 0
          /\ dget t (cost_nsp body) = Some 0)
    /\ bid_soc (offer_constants body) = true
    /\ soc_begin (offer_constants body) = status_soc (self_resource self)
    /\ init_en (offer_constants body)
       = status_dispatch (self_resource self)
    /\ soc_end (offer_constants body) = self_socmin self
    /\ eff_ch (offer_constants body) = self_efficiency self.
Proof.
  intros Hts. destruct (max_str_some _ Hts) as [t_end Hmax].
  pose proof (max_str_in _ _ Hmax) as Hin.
  exists t_end. do 3 eexists.
  split; [apply (real_time_offer_value self t_end Hmax)|].
  split; [exact Hin|]. simpl.
  split; [reflexivity|]. split; [reflexivity|].
  split; [|repeat split].
  intros t Ht.
  unfold _default_reserve_offer, zeros_dict.
  rewrite !constant_dict_get.
  destruct (in_dec string_dec t (timestamps (self_market self)));
    [|contradiction].
  repeat split.
Qed.

Lemma real_time_offer_packaging_witness :
  exists t_end body soc_mc soc_mq,
    _real_time_offer rt_post_agent = Ok [(self_rid rt_post_agent, body)]
    /\ In t_end (timestamps (self_market rt_post_agent))
    /\ block_soc_mc body = [(t_end, soc_mc)]
    /\ block_soc_mq body = [(t_end, soc_mq)]
    /\ (forall t,
          In t (timestamps (self_market rt_post_agent)) ->
          dget t (offer_chmax body) = Some (self_chmax rt_post_agent)
          /\ dget t (offer_dcmax body) = Some (self_dcmax rt_post_agent)
          /\ dget t (cost_rgu body) = Some 0
          /\ dget t (cost_rgd body) = Some 0
          /\ dget t (cost_spr body) = Some 0
          /\ dget t (cost_nsp body) = Some 0)
    /\ bid_soc (offer_constants body) = true
    /\ soc_begin (offer_constants body)
       = status_soc (self_resource rt_post_agent)
    /\ init_en (offer_constants body)
       = status_dispatch (self_resource rt_post_agent)
    /\ soc_end (offer_constants body) = self_socmin rt_post_agent
    /\ eff_ch (offer_constants body) = self_efficiency rt_post_agent.
Proof.
  apply (real_time_offer_packaging rt_post_agent). discriminate.
Defined.

(* ================================================================== *)
(** * Further properties of the opportunity-cost engine *)

Lemma len_nonneg {A} (l : list A) : (0 <= len l)%Z.
Proof. unfold len. lia. Qed.

Lemma clamp_nonneg (n i : Z) : (0 <= n)%Z -> (0 <= clamp n i)%Z.
Proof. unfold clamp. destruct (i <? 0)%Z eqn:E; lia. Qed.

Lemma slice_empty {A} (l : list A) (lo hi : Z) :
  (0 <= lo)%Z -> (hi <= lo)%Z -> (0 <= hi)%Z ->
  slice l (Some lo) (Some hi) = [].
Proof.
  intros Hlo Hle Hhi. unfold slice, clamp.
  pose proof (len_nonneg l).
  replace (lo <? 0)%Z with false by (symmetry; apply Z.ltb_ge; lia).
  replace (hi <? 0)%Z with false by (symmetry; apply Z.ltb_ge; lia).
  replace (Z.to_nat (Z.min hi (len l) - Z.min lo (len l))) with 0%nat
    by lia.
  reflexivity.
Qed.

Lemma where_from_ge {A} (p : A -> bool) (l : list A) :
  forall k x, In x (where_from p k l) -> (k <= x)%Z.
Proof.
  induction l as [|a r IH]; simpl; intros k x H; [destruct H|].
  destruct (p a).
  - destruct H as [<-|H]; [lia|]. apply IH in H. lia.
  - apply IH in H. lia.
Qed.

Lemma fold_max_ge (r : list Z) (k : Z) : (k <= fold_left Z.max r k)%Z.
Proof.
  revert k. induction r as [|x r IH]; simpl; intros k; [lia|].
  specialize (IH (Z.max k x)). lia.
Qed.

Lemma last_index_nonneg {A} (p : A -> bool) (l : list A) :
  (0 <= (if falsy (max_or_None (indices p l)) then 0
         else the_int (max_or_None (indices p l))))%Z.
Proof.
  unfold indices. destruct (where_from p 0 l) as [|k r] eqn:E; simpl.
  - lia.
  - destruct (fold_left Z.max r k =? 0)%Z; [lia|].
    pose proof (fold_max_ge r k).
    pose proof (where_from_ge p l 0 k) as Hk. rewrite E in Hk.
    specialize (Hk (or_introl eq_refl)). lia.
Qed.

(** X19.  A discharge scheduled in the first period cannot be priced: the
    search for the cheapest price before it runs over an empty range. *)
Theorem discharge_in_first_period (self : Agent)
    (combined_list prices : list Q) :
  exists msg,
    _calc_oc_discharge self combined_list prices 0
    = Raise (ValueError msg).
Proof.
  unfold _calc_oc_discharge.
  pose proof (last_index_nonneg (fun value => ltb value 0)
                (slice combined_list None (Some (0 - 1)%Z))) as Hj.
  set (j := if falsy _ then 0%Z else the_int _) in *.
  cbv zeta.
  replace (j =? 0 - 1)%Z with false by (symmetry; apply Z.eqb_neq; lia).
  replace (j =? 0 - 2)%Z with false by (symmetry; apply Z.eqb_neq; lia).
  rewrite (slice_empty prices (j + 1) 0) by lia.
  destruct (0 =? len prices - 1)%Z; simpl.
  - eexists. reflexivity.
  - destruct (max _) as [m|e] eqn:E; simpl.
    + eexists. reflexivity.
    + unfold max in E. destruct (slice prices _ _); inversion E.
      eexists. reflexivity.
Qed.

Lemma slice_nat {A} (l : list A) (a b : nat) :
  (a <= b <= List.length l)%nat ->
  slice l (Some (Z.of_nat a)) (Some (Z.of_nat b))
  = firstn (b - a) (skipn a l).
Proof.
  intros H. unfold slice, clamp, len.
  replace (Z.of_nat a <? 0)%Z with false by (symmetry; apply Z.ltb_ge; lia).
  replace (Z.of_nat b <? 0)%Z with false by (symmetry; apply Z.ltb_ge; lia).
  f_equal; [|f_equal]; lia.
Qed.

Lemma slice_from_nat {A} (l : list A) (a : nat) :
  (a <= List.length l)%nat ->
  slice l (Some (Z.of_nat a)) None = skipn a l.
Proof.
  intros H. unfold slice, clamp, len.
  replace (Z.of_nat a <? 0)%Z with false by (symmetry; apply Z.ltb_ge; lia).
  replace (Z.to_nat (Z.min (Z.of_nat a) (Z.of_nat (List.length l))))
    with a by lia.
  replace (Z.to_nat (Z.of_nat (List.length l)
                     - Z.min (Z.of_nat a) (Z.of_nat (List.length l))))
    with (List.length (skipn a l)) by (rewrite length_skipn; lia).
  apply firstn_all.
Qed.

Lemma slice_to_nat {A} (l : list A) (b : nat) :
  (b <= List.length l)%nat ->
  slice l None (Some (Z.of_nat b)) = firstn b l.
Proof.
  intros H. unfold slice, clamp, len.
  replace (Z.of_nat b <? 0)%Z with false by (symmetry; apply Z.ltb_ge; lia).
  simpl skipn. f_equal. lia.
Qed.

(** X20.  A charge in the first period with a discharge right after it cannot
    be priced: the prices between the two are an empty range. *)
Theorem charge_then_immediate_discharge (self : Agent) (v0 v1 : Q)
    (rest prices : list Q) :
  0 < v1 ->
  exists msg,
    _calc_oc_charge self (v0 :: v1 :: rest) prices 0
    = Raise (ValueError msg).
Proof.
  intros Hpos. unfold _calc_oc_charge.
  replace (0 <? len (v0 :: v1 :: rest) - 1)%Z with true
    by (symmetry; apply Z.ltb_lt; unfold len; simpl List.length; lia).
  change (0 + 1)%Z with (Z.of_nat 1).
  rewrite slice_from_nat by (simpl; lia).
  simpl skipn. unfold indices. simpl where_from.
  rewrite (proj2 (gtb_gt v1 0) Hpos). simpl.
  rewrite (slice_empty prices 1 1) by lia.
  eexists. reflexivity.
Qed.

Lemma charge_then_immediate_discharge_witness :
  exists msg,
    _calc_oc_charge da_agent [-125; 125; 0] [10; 50; 50] 0
    = Raise (ValueError msg).
Proof.
  apply (charge_then_immediate_discharge da_agent (-125) 125 [0]
           [10; 50; 50]).
  reflexivity.
Defined.

Lemma ltb_zero_false (v : Q) : v == 0 -> ltb v 0 = false /\ gtb v 0 = false.
Proof. intros H. split; apply ltb_ge; lra. Qed.

(** X21.  A schedule that is idle in its first period is never priced: the
    engine stops at one of its first two assertions, or at the cheapest
    price before the first period, which is taken over an empty range. *)
Theorem idle_first_period (self : Agent)
    (prices charge_mq discharge_mq : list Q) (t0 : string)
    (ts : list string) (v0 : Q) (vs : list Q) :
  timestamps (self_market self) = t0 :: ts ->
  NoDup (t0 :: ts) ->
  combine_flows charge_mq discharge_mq = v0 :: vs ->
  v0 == 0 ->
  exists e,
    _calculate_opportunity_costs self prices charge_mq discharge_mq
    = Raise e
    /\ (e = AssertionError "t1_ch is not an int"
        \/ e = AssertionError "t_last_dis is not an int"
        \/ e = ValueError "min() arg is an empty sequence").
Proof.
  intros Hts Hnd Hflow Hz. unfold _calculate_opportunity_costs.
  rewrite Hts, Hflow.
  rewrite dict_of_distinct by (apply combine_fst_distinct; exact Hnd).
  destruct (ltb_zero_false v0 Hz) as [Hl Hg].
  simpl List.combine. simpl map. unfold indices at 1. simpl where_from.
  rewrite Hl.
  match goal with
  | |- context [next_or_None ?g] => destruct g as [|k r] eqn:E
  end; simpl next_or_None.
  - eexists. split; [reflexivity|auto].
  - destruct (last_positive (v0 :: vs)) as [tl|].
    + assert (Hk : (1 <= k)%Z).
      { pose proof (where_from_ge (fun value => ltb value 0)
                      (map snd (List.combine ts vs)) 1 k) as Hge.
        rewrite E in Hge. specialize (Hge (or_introl eq_refl)). lia. }
      simpl oc_loop. unfold oc_period. rewrite Hl, Hg.
      replace (0 <? k)%Z with true by (symmetry; apply Z.ltb_lt; lia).
      unfold _calc_oc_before_first_charge.
      rewrite (slice_empty prices 0 0) by lia.
      destruct (min (slice prices (Some 0%Z) (Some (k + 1)%Z)))
        as [m|e] eqn:Em; simpl.
      * eexists. split; [reflexivity|auto].
      * unfold min in Em. destruct (slice prices _ _); inversion Em.
        eexists. split; [reflexivity|auto].
    + eexists. split; [reflexivity|auto].
Qed.

Lemma idle_first_period_witness :
  exists e,
    _calculate_opportunity_costs da_agent [10; 10; 50; 50; 10]
      [0; 125; 0; 0; 0] [0; 0; 0; 125; 0]
    = Raise e
    /\ (e = AssertionError "t1_ch is not an int"
        \/ e = AssertionError "t_last_dis is not an int"
        \/ e = ValueError "min() arg is an empty sequence").
Proof.
  apply (idle_first_period da_agent [10; 10; 50; 50; 10]
           [0; 125; 0; 0; 0] [0; 0; 0; 125; 0]
           "202401010000"
           ["202401010100"; "202401010200"; "202401010300";
            "202401010400"]
           (0 - 0) [0 - 125; 0 - 0; 125 - 0; 0 - 0]).
  - reflexivity.
  - repeat constructor; simpl; intuition discriminate.
  - reflexivity.
  - reflexivity.
Defined.

(** X22.  A charge scheduled in the last period takes the fallback
    index, the period itself.  With [m] the cheapest earlier price and
    [p] the price of the period, its charge cost is [m * efficiency]
    and its discharge cost is computed as [m * efficiency + p - p]. *)
Theorem charge_in_last_period (self : Agent) (combined_list front : list Q)
    (p : Q) :
  front <> [] ->
  List.length combined_list = S (List.length front) ->
  exists m,
    min front = Ok m
    /\ _calc_oc_charge self combined_list (front ++ [p]) (len front)
       = Ok (m * self_efficiency self, m * self_efficiency self + p - p).
Proof.
  intros Hne Hlen.
  destruct front as [|x0 fr] eqn:Ef; [congruence|]. rewrite <- Ef in *.
  assert (Hm : exists m, min front = Ok m)
    by (rewrite Ef; eexists; reflexivity).
  destruct Hm as [m Hm]. exists m.
  assert (Hn : (1 <= List.length front)%nat) by (rewrite Ef; simpl; lia).
  clear Ef x0 fr Hne.
  assert (Hlp : List.length (front ++ [p]) = S (List.length front))
    by (rewrite length_app; simpl; lia).
  unfold _calc_oc_charge.
  replace (len front <? len combined_list - 1)%Z with false
    by (symmetry; apply Z.ltb_ge; unfold len; lia).
  simpl bind. simpl falsy. cbv iota.
  replace (Z.min (len front + 1) (len (front ++ [p]) - 1)) with (len front)
    by (unfold len; lia).
  replace (len front =? 0)%Z with false
    by (symmetry; apply Z.eqb_neq; unfold len; lia).
  replace (len front =? len front + 1)%Z with false
    by (symmetry; apply Z.eqb_neq; lia).
  replace (len front =? len front + 2)%Z with false
    by (symmetry; apply Z.eqb_neq; lia).
  replace (len front + 1)%Z with (Z.of_nat (S (List.length front)))
    by (unfold len; lia).
  unfold len at 1 2 3 4.
  change 0%Z with (Z.of_nat 0).
  rewrite (slice_nat (front ++ [p]) 0 (List.length front)) by lia.
  rewrite (slice_nat (front ++ [p]) (List.length front)
             (S (List.length front))) by lia.
  rewrite (slice_to_nat (front ++ [p]) (List.length front)) by lia.
  rewrite (slice_from_nat (front ++ [p]) (S (List.length front))) by lia.
  rewrite getitem_nth.
  rewrite Nat.sub_0_r.
  replace (S (List.length front) - List.length front)%nat with 1%nat by lia.
  change (skipn 0 (front ++ [p])) with (front ++ [p]).
  replace (skipn (S (List.length front)) (front ++ [p])) with (@nil Q)
    by (symmetry; rewrite <- Hlp; apply skipn_all).
  replace (skipn (List.length front) (front ++ [p])) with [p]
    by (rewrite skipn_app, skipn_all, Nat.sub_diag; reflexivity).
  replace (firstn (List.length front) (front ++ [p])) with front
    by (rewrite firstn_app, firstn_all, Nat.sub_diag; simpl;
        now rewrite app_nil_r).
  rewrite app_nil_r, Hm.
  rewrite nth_error_app2, Nat.sub_diag by lia.
  simpl. split; reflexivity.
Qed.

Lemma charge_in_last_period_witness :
  exists m,
    min [10; 50; 20] = Ok m
    /\ _calc_oc_charge da_agent [-125; 0; 125; -125] ([10; 50; 20] ++ [30])
         (len [10; 50; 20])
       = Ok (m * self_efficiency da_agent,
             m * self_efficiency da_agent + 30 - 30).
Proof.
  apply (charge_in_last_period da_agent [-125; 0; 125; -125]
           [10; 50; 20] 30).
  - discriminate.
  - reflexivity.
Defined.

Lemma oc_loop_lengths (self : Agent) (combined_list prices : list Q)
    (t1_ch t_last_dis : Z) (schedule : dict Q) :
  forall i charge_list discharge_list cl dl,
    oc_loop self combined_list prices t1_ch t_last_dis i schedule
      charge_list discharge_list = Ok (cl, dl) ->
    List.length cl = (List.length charge_list + List.length schedule)%nat
    /\ List.length dl
       = (List.length discharge_list + List.length schedule)%nat.
Proof.
  induction schedule as [|[k value] rest IH]; simpl;
    intros i charge_list discharge_list cl dl H.
  - inversion H. lia.
  - destruct (oc_period _ _ _ _ _ _ _) as [oc|e]; [|discriminate].
    simpl in H. apply IH in H. rewrite !length_app in H. simpl in H. lia.
Qed.

(** X23.  When the engine returns, it returns one charge cost and one
    discharge cost for each scheduled period, and neither list is all
    zero. *)
Theorem engine_output_shape (self : Agent)
    (prices charge_mq discharge_mq charge_list discharge_list : list Q) :
  NoDup (timestamps (self_market self)) ->
  _calculate_opportunity_costs self prices charge_mq discharge_mq
  = Ok (charge_list, discharge_list) ->
  let periods :=
    Nat.min (List.length (timestamps (self_market self)))
      (Nat.min (List.length charge_mq) (List.length discharge_mq)) in
  List.length charge_list = periods
  /\ List.length discharge_list = periods
  /\ (periods <= List.length prices)%nat
  /\ 0 < sum (map Qabs charge_list)
  /\ 0 < sum (map Qabs discharge_list).
Proof.
  intros Hnd H. unfold _calculate_opportunity_costs in H.
  rewrite dict_of_distinct in H by (apply combine_fst_distinct; exact Hnd).
  destruct (next_or_None _) as [t1|]; [|discriminate].
  destruct (last_positive _) as [tl|]; [|discriminate].
  destruct (oc_loop _ _ _ _ _ _ _ _ _) as [[cl dl]|e] eqn:E;
    [|discriminate].
  simpl in H.
  destruct (gtb (sum (map Qabs cl)) 0) eqn:G1; [|discriminate].
  simpl in H.
  destruct (gtb (sum (map Qabs dl)) 0) eqn:G2; [|discriminate].
  simpl in H. inversion H; subst cl dl. clear H.
  apply gtb_gt in G1. apply gtb_gt in G2.
  pose proof (oc_loop_lengths _ _ _ _ _ _ _ _ _ _ _ E) as [L1 L2].
  simpl in L1, L2.
  assert (HP : (List.length
                  (List.combine (timestamps (self_market self))
                     (combine_flows charge_mq discharge_mq))
                <= List.length prices)%nat).
  { assert (G : forall schedule i cl0 dl0 cl1 dl1,
              oc_loop self (combine_flows charge_mq discharge_mq) prices
                t1 tl (Z.of_nat i) schedule cl0 dl0 = Ok (cl1, dl1) ->
              (i + List.length schedule <= List.length prices)%nat
              \/ schedule = []).
    { induction schedule as [|[k v] rest IH]; intros i cl0 dl0 cl1 dl1 H;
        [auto|].
      left. simpl in H. unfold oc_period in H.
      destruct (if ltb v 0 then _ else _) as [oc|e]; [|discriminate].
      simpl in H. rewrite getitem_nth in H.
      destruct (nth_error prices i) eqn:En; [|discriminate].
      simpl in H.
      assert (Hi : (i < List.length prices)%nat)
        by (apply nth_error_Some; congruence).
      replace (Z.of_nat i + 1)%Z with (Z.of_nat (S i)) in H by lia.
      apply IH in H. simpl. destruct H as [H| ->]; simpl; lia. }
    change 0%Z with (Z.of_nat 0) in E. apply G in E.
    destruct E as [E|E]; [simpl in E; lia|].
    rewrite E. simpl. lia. }
  rewrite length_combine in L1, L2, HP. unfold combine_flows in L1, L2, HP.
  rewrite length_map, length_combine in L1, L2, HP.
  cbv zeta. repeat split; auto.
Qed.

Lemma engine_output_shape_witness :
  let periods :=
    Nat.min (List.length (timestamps (self_market da_agent)))
      (Nat.min (List.length [125; 0; 0; 0; 0])
         (List.length [0; 0; 125; 0; 0])) in
  List.length [10; 10; (50 - 10) * efficiency - 10; 10 * efficiency; 0]
  = periods
  /\ List.length [10 + 0.01; 50; 10 / efficiency; 10 / efficiency;
                  10 / efficiency] = periods
  /\ (periods <= List.length [10; 10; 50; 10; 10])%nat
  /\ 0 < sum (map Qabs [10; 10; (50 - 10) * efficiency - 10;
                        10 * efficiency; 0])
  /\ 0 < sum (map Qabs [10 + 0.01; 50; 10 / efficiency; 10 / efficiency;
                        10 / efficiency]).
Proof.
  apply (engine_output_shape da_agent [10; 10; 50; 10; 10]
           [125; 0; 0; 0; 0] [0; 0; 125; 0; 0]).
  - simpl. repeat constructor; simpl; intuition discriminate.
  - vm_compute. reflexivity.
Defined.

(* ================================================================== *)
(** * Further properties of the scheduler *)

Lemma sum_app (l1 l2 : list Q) : sum (l1 ++ l2) == sum l1 + sum l2.
Proof.
  unfold sum. rewrite fold_left_app, fold_Qplus_from. reflexivity.
Qed.

Lemma sum_zeros (l : list Q) : (forall x, In x l -> x == 0) -> sum l == 0.
Proof.
  induction l as [|x r IH]; intros H; [reflexivity|].
  rewrite sum_cons.
  assert (Hx : x == 0) by (apply H; simpl; auto).
  assert (Hr : sum r == 0) by (apply IH; intros; apply H; simpl; auto).
  lra.
Qed.

Lemma feasible_parts (self : Agent) (prices : list Q) (s : LP.assignment) :
  LP.feasible (scheduler_model self prices) s = true
  <-> (forall t, (t < List.length prices)%nat ->
         0 <= s (LP.c t) <= self_chmax self
         /\ 0 <= s (LP.d t) <= self_dcmax self)
      /\ (forall t, (t <= List.length prices)%nat ->
            0 <= s (LP.b t) <= self_socmax self)
      /\ (forall t, (t < List.length prices)%nat ->
            soc_at s (S t)
            == soc_at s t + self_efficiency self * s (LP.c t)
               - s (LP.d t)).
Proof.
  unfold LP.feasible, scheduler_model. simpl.
  rewrite !forallb_app, !Bool.andb_true_iff.
  unfold charge_vars, discharge_vars, dasoc_vars.
  rewrite !forallb_map_seq.
  split.
  - intros [(Hc & Hd & Hb) Hk]. split; [|split].
    + intros t Ht. split.
      * exact (proj1 (in_bounds_iff s _) (Hc t ltac:(lia))).
      * exact (proj1 (in_bounds_iff s _) (Hd t ltac:(lia))).
    + intros t Ht. exact (proj1 (in_bounds_iff s _) (Hb t ltac:(lia))).
    + intros t Ht.
      pose proof (proj1 (holds_balance self s _ t Ht)
                    (Hk t ltac:(lia))) as HB.
      rewrite Nat.add_1_r in HB. exact HB.
  - intros (Hcd & Hb & Hk). split; [split; [|split]|].
    + intros i Hi. apply in_bounds_iff. exact (proj1 (Hcd i ltac:(lia))).
    + intros i Hi. apply in_bounds_iff. exact (proj2 (Hcd i ltac:(lia))).
    + intros i Hi. apply in_bounds_iff. exact (Hb i ltac:(lia)).
    + intros i Hi.
      apply (proj2 (holds_balance self s (List.length prices) i
                      ltac:(lia))).
      rewrite Nat.add_1_r. apply Hk. lia.
Qed.

(** X24.  The program of the scheduler always has a solution: with
    non-negative limits, never charging and never discharging satisfies
    it, at cost 0. *)
Theorem idle_schedule_feasible (self : Agent) (prices : list Q) :
  0 <= self_chmax self -> 0 <= self_dcmax self ->
  0 <= self_socmax self ->
  LP.feasible (scheduler_model self prices) idle_schedule = true
  /\ LP.eval idle_schedule (LP.objective (scheduler_model self prices))
     == 0.
Proof.
  intros Hc Hd Hs. split.
  - apply feasible_parts. unfold idle_schedule. split; [|split].
    + intros t _. repeat split; lra.
    + intros t _. split; lra.
    + intros t _. destruct t; simpl; ring.
  - unfold scheduler_model. simpl.
    rewrite eval_fold_Add, map_map. simpl.
    apply sum_zeros. intros x Hx.
    apply in_map_iff in Hx. destruct Hx as [i [<- _]].
    unfold idle_schedule. ring.
Qed.

Lemma idle_schedule_feasible_witness :
  LP.feasible (scheduler_model da_agent [10; 10; 50; 50]) idle_schedule
  = true
  /\ LP.eval idle_schedule
       (LP.objective (scheduler_model da_agent [10; 10; 50; 50]))
     == 0.
Proof.
  apply (idle_schedule_feasible da_agent [10; 10; 50; 50]);
    vm_compute; congruence.
Defined.

Lemma sum_snoc (l : list Q) (x : Q) : sum (l ++ [x]) == sum l + x.
Proof.
  rewrite sum_app, sum_cons.
  assert (E : sum [] == 0) by reflexivity.
  rewrite E. ring.
Qed.

Lemma stored_S (self : Agent) (s : LP.assignment) (t : nat) :
  stored self s (S t)
  == stored self s t + self_efficiency self * s (LP.c t) - s (LP.d t).
Proof.
  unfold stored. rewrite seq_S, map_app. simpl map at 2.
  rewrite sum_snoc. simpl. ring.
Qed.

Lemma stored_split (self : Agent) (s : LP.assignment) (t : nat) :
  stored self s t
  == self_efficiency self * charged s t - discharged s t.
Proof.
  induction t as [|t IH].
  - unfold stored, charged, discharged, sum. simpl. ring.
  - rewrite stored_S, IH. unfold charged, discharged.
    rewrite !seq_S, !map_app. simpl map.
    rewrite !sum_snoc. simpl. ring.
Qed.

(** X25.  In every schedule that satisfies the program, the state of charge
    of a period is the energy stored so far; it stays within
    [0, socmax], so that what has been discharged by any period never
    exceeds the efficiency times what has been charged by then. *)
Theorem feasible_energy_balance (self : Agent) (prices : list Q)
    (s : LP.assignment) (t : nat) :
  LP.feasible (scheduler_model self prices) s = true ->
  (t <= List.length prices)%nat ->
  soc_at s t == stored self s t
  /\ 0 <= stored self s t <= self_socmax self
  /\ discharged s t <= self_efficiency self * charged s t.
Proof.
  intros Hf Ht. apply feasible_parts in Hf. destruct Hf as (_ & Hb & Hk).
  assert (Hsoc : soc_at s t == stored self s t).
  { induction t as [|t IH].
    - unfold stored, sum. simpl. reflexivity.
    - rewrite stored_S, <- IH by lia. apply Hk. lia. }
  assert (Hrange : 0 <= soc_at s t <= self_socmax self).
  { destruct t as [|t]; simpl.
    - pose proof (Hb 0%nat ltac:(lia)). lra.
    - apply Hb. lia. }
  split; [exact Hsoc|].
  rewrite <- Hsoc. split; [exact Hrange|].
  pose proof (stored_split self s t) as Hsp. lra.
Qed.

Lemma feasible_energy_balance_witness :
  soc_at always_charging 3 == stored da_agent always_charging 3
  /\ 0 <= stored da_agent always_charging 3 <= self_socmax da_agent
  /\ discharged always_charging 3
     <= self_efficiency da_agent * charged always_charging 3.
Proof.
  apply (feasible_energy_balance da_agent [1; 1; 1; 1; 1]
           always_charging 3).
  - vm_compute. reflexivity.
  - simpl. lia.
Defined.

(** X26.  The scheduler never returns a degenerate schedule: a result has one
    charge and one discharge value for every price, at least one price,
    and a non-zero value in each list; it needs a loaded solver. *)
Theorem scheduler_result_shape (self : Agent)
    (CreateSolver : string -> option LP.Solver)
    (prices charge_list discharge_list : list Q) :
  _scheduler self CreateSolver prices = Ok (charge_list, discharge_list) ->
  List.length charge_list = List.length prices
  /\ List.length discharge_list = List.length prices
  /\ prices <> []
  /\ 0 < sum (map Qabs charge_list)
  /\ 0 < sum (map Qabs discharge_list)
  /\ exists solver, CreateSolver "GLOP" = Some solver.
Proof.
  unfold _scheduler. intros H.
  destruct (CreateSolver "GLOP") as [solver|]; [|discriminate].
  match type of H with
  | context [assert (gtb ?x 0) _] => destruct (gtb x 0) eqn:G1
  end; [|discriminate].
  simpl in H.
  match type of H with
  | context [assert (gtb ?x 0) _] => destruct (gtb x 0) eqn:G2
  end; [|discriminate].
  simpl in H. inversion H; subst. clear H.
  apply gtb_gt in G1. apply gtb_gt in G2.
  rewrite !length_map, !length_seq.
  repeat split; auto.
  - intros ->. simpl in G1. unfold sum in G1. simpl in G1. lra.
  - eauto.
Qed.

Lemma scheduler_result_shape_witness :
  List.length [1; 1] = List.length [10; 50]
  /\ List.length [1; 1] = List.length [10; 50]
  /\ [10; 50] <> []
  /\ 0 < sum (map Qabs [1; 1])
  /\ 0 < sum (map Qabs [1; 1])
  /\ exists solver,
       (fun _ : string => Some (infeasible_solver 1)) "GLOP" = Some solver.
Proof.
  apply (scheduler_result_shape da_agent
           (fun _ => Some (infeasible_solver 1)) [10; 50] [1; 1] [1; 1]).
  reflexivity.
Defined.

(* ================================================================== *)
(** * The efficiency on scheduled charges *)

Lemma process_efficiency_map (self : Agent) (data : list Q) :
  _process_efficiency self data = map (processed self) data.
Proof.
  unfold _process_efficiency.
  assert (G : forall acc,
            fold_left
              (fun processed_data num =>
                 if ltb num 0
                 then processed_data ++ [num * self_efficiency self]
                 else processed_data ++ [num])
              data acc
            = acc ++ map (processed self) data).
  { induction data as [|x r IH]; cbn [fold_left map]; intros acc.
    - now rewrite app_nil_r.
    - rewrite IH. unfold processed at 2.
      destruct (ltb x 0); rewrite <- app_assoc; reflexivity. }
  apply (G []).
Qed.

(** X27.  [_process_efficiency] keeps the length and the order of its list;
    a quantity that is not negative is kept as it is, a negative one is
    multiplied by the efficiency.  With an efficiency between 0 and 1
    no quantity changes its sign or grows in magnitude, and the sum of
    the list does not decrease. *)
Theorem process_efficiency_entries (self : Agent) (data : list Q) :
  List.length (_process_efficiency self data) = List.length data
  /\ (forall i x,
        nth_error data i = Some x ->
        exists y,
          nth_error (_process_efficiency self data) i = Some y
          /\ (0 <= x -> y = x)
          /\ (x < 0 -> y = x * self_efficiency self))
  /\ (0 <= self_efficiency self <= 1 ->
      (forall i x y,
         nth_error data i = Some x ->
         nth_error (_process_efficiency self data) i = Some y ->
         x <= y /\ (x < 0 -> y <= 0) /\ (0 <= x -> 0 <= y))
      /\ sum data <= sum (_process_efficiency self data)).
Proof.
  rewrite process_efficiency_map.
  split; [apply length_map|]. split.
  - intros i x Hx. exists (processed self x).
    split; [now apply map_nth_error|].
    unfold processed. split; intros H.
    + now rewrite (ltb_false_of_le x 0).
    + now rewrite (proj2 (ltb_lt x 0) H).
  - intros He.
    assert (Hp : forall x,
              x <= processed self x
              /\ (x < 0 -> processed self x <= 0)
              /\ (0 <= x -> 0 <= processed self x)).
    { intros x. unfold processed. destruct (ltb x 0) eqn:E.
      - apply ltb_lt in E. repeat split; intros; nra.
      - apply ltb_ge in E. repeat split; intros; lra. }
    split.
    + intros i x y Hx Hy.
      rewrite (map_nth_error (processed self) _ _ Hx) in Hy.
      inversion Hy. apply Hp.
    + induction data as [|x r IH]; [simpl; lra|].
      simpl map. rewrite !sum_cons. destruct (Hp x) as (Hx & _). lra.
Qed.

Lemma process_efficiency_entries_witness :
  sum [-120; 600; 0] <= sum (_process_efficiency rt_charge_agent
                               [-120; 600; 0]).
Proof.
  apply (proj2 (proj2 (process_efficiency_entries rt_charge_agent
                         [-120; 600; 0]))).
  vm_compute. split; congruence.
Defined.

(* ================================================================== *)
(** * Solver failures (C7) *)



